(** * HTTP handler instrumentation: a shallow embedding of
    [instrumentation/instrument.go] and of the [rwShared] family of response
    writers, with the properties of the middleware stated over it.

    Conventions of the embedding:
    - Go's [int] and [int64] are 64-bit two's complement integers, carried as
      [Z] with the wrap-around of [+=] written out ([add64]);
    - a [float64] handed to a collector is kept symbolic ([float64]), so that
      no rounding is invented;
    - the underlying [http.ResponseWriter] is an external object: it is a
      record holding the optional interfaces its dynamic type implements, the
      calls it has received so far, and the answers it gives;
    - the wrapped [handlerFunc] is an arbitrary Go function: it is a tree of
      calls on the response writer it is given, branching on their results;
    - label-indexed metric vectors are finite maps from label values. *)

From Stdlib Require Import ZArith Lia List String Ascii Bool QArith.
From Stdlib Require Import DecimalString.
From Stdlib Require DecimalZ DecimalPos.
From Stdlib.Strings Require Import Byte.
From stdpp Require Import base option gmap strings.
Import ListNotations.

#[local] Open Scope Z_scope.
#[local] Open Scope string_scope.

(* ===================================================================== *)
(** ** Go integers *)
(* ===================================================================== *)

Module GoInt.

Definition min_int64 : Z := - 2 ^ 63.
Definition max_int64 : Z := 2 ^ 63 - 1.

(** The value of an integer expression once stored in an [int64]. *)
Definition wrap64 (z : Z) : Z := (z + 2 ^ 63) mod 2 ^ 64 - 2 ^ 63.

(** [a += b] on [int64]. *)
Definition add64 (a b : Z) : Z := wrap64 (a + b).

Definition in_int64 (z : Z) : Prop := min_int64 <= z <= max_int64.

End GoInt.
Export GoInt.

(* ===================================================================== *)
(** ** Label canonicalisation: [sanitizeMethod] and [sanitizeCode] *)
(* ===================================================================== *)

(** [strconv.Itoa]: the decimal representation of a signed integer. *)
Definition Itoa (s : Z) : string := NilZero.string_of_int (Z.to_int s).

(** [strings.ToLower] restricted to ASCII letters; used where a concrete
    lower-casing function is needed to run the model. *)
Definition lower_ascii (c : ascii) : ascii :=
  let n := N_of_ascii c in
  if ((65 <=? n) && (n <=? 90))%N then ascii_of_N (n + 32) else c.

Fixpoint ToLowerASCII (s : string) : string :=
  match s with
  | EmptyString => EmptyString
  | String c s' => String (lower_ascii c) (ToLowerASCII s')
  end.

Definition sanitizeCode (s : Z) : string :=
  match s with
  | 100 => "100"
  | 101 => "101"

  | 200 => "200"
  | 201 => "201"
  | 202 => "202"
  | 203 => "203"
  | 204 => "204"
  | 205 => "205"
  | 206 => "206"

  | 300 => "300"
  | 301 => "301"
  | 302 => "302"
  | 304 => "304"
  | 305 => "305"
  | 307 => "307"

  | 400 => "400"
  | 401 => "401"
  | 402 => "402"
  | 403 => "403"
  | 404 => "404"
  | 405 => "405"
  | 406 => "406"
  | 407 => "407"
  | 408 => "408"
  | 409 => "409"
  | 410 => "410"
  | 411 => "411"
  | 412 => "412"
  | 413 => "413"
  | 414 => "414"
  | 415 => "415"
  | 416 => "416"
  | 417 => "417"
  | 418 => "418"

  | 500 => "500"
  | 501 => "501"
  | 502 => "502"
  | 503 => "503"
  | 504 => "504"
  | 505 => "505"

  | 428 => "428"
  | 429 => "429"
  | 431 => "431"
  | 511 => "511"

  | _ => Itoa s
  end.

Section Method.

(** [strings.ToLower] belongs to Go's library; the model takes it as given. *)
Variable ToLower : string -> string.

Definition sanitizeMethod (m : string) : string :=
  if String.eqb m "GET" || String.eqb m "get" then "get"
  else if String.eqb m "PUT" || String.eqb m "put" then "put"
  else if String.eqb m "HEAD" || String.eqb m "head" then "head"
  else if String.eqb m "POST" || String.eqb m "post" then "post"
  else if String.eqb m "DELETE" || String.eqb m "delete" then "delete"
  else if String.eqb m "CONNECT" || String.eqb m "connect" then "connect"
  else if String.eqb m "OPTIONS" || String.eqb m "options" then "options"
  else if String.eqb m "NOTIFY" || String.eqb m "notify" then "notify"
  else ToLower m.

End Method.


(* ===================================================================== *)
(** ** The underlying response writer ([net/http]) *)
(* ===================================================================== *)

(** The optional interfaces a response writer may implement besides the
    mandatory [Header]/[Write]/[WriteHeader]: [http.CloseNotifier],
    [http.Flusher], [http.Hijacker], [io.ReaderFrom], [http.Pusher] and the
    package's own [stringWriter]. *)
Inductive Capability : Set :=
| CloseNotifier | Flusher | Hijacker | ReaderFrom | Pusher | StringWriter.

#[global] Instance Capability_eq_dec : EqDecision Capability.
Proof. solve_decision. Defined.

Inductive error : Set := Err (msg : string).

(** A method call as the underlying writer receives it. *)
Inductive Call : Set :=
| CallHeader
| CallWriteHeader (code : Z)
| CallWrite (b : list byte)
| CallWriteString (s : string)
| CallCloseNotify
| CallFlush
| CallHijack
| CallReadFrom (src : list byte)
| CallPush (target : string).

Module http.

Definition StatusOK : Z := 200.

(** A value of interface type [http.ResponseWriter]: which optional
    interfaces its dynamic type implements, the calls it has received
    (oldest first), and what it answers to a call given those it has
    received: a byte count and an error, read by the methods that return
    them. *)
Record ResponseWriter : Type := {
  implements : Capability -> bool;
  received : list Call;
  answers : list Call -> Call -> Z * option error
}.

(** The fields of [*http.Request] the middleware reads. *)
Record Request : Set := { Method : string; URL : string }.

End http.
Export http.

(** Calling a method of the underlying writer: the call is received, and the
    count it returns is a Go integer. *)
Definition invoke (c : Call) (w : http.ResponseWriter) : (Z * option error) * http.ResponseWriter :=
  let '(n, err) := answers w (received w) c in
  ((wrap64 n, err),
   {| implements := implements w; received := received w ++ [c]; answers := answers w |}).

(** The result of a method that may panic on a failed type assertion
    [x.(I)]; either way the receiver's state after the call is known. *)
Inductive result (S A : Type) : Type :=
| Value (a : A) (s : S)
| AssertPanic (missing : Capability) (s : S).
Arguments Value {S A} a s.
Arguments AssertPanic {S A} missing s.

Definition panicked {S A} (r : result S A) : bool :=
  match r with Value _ _ => false | AssertPanic _ _ => true end.

Definition state_of {S A} (r : result S A) : S :=
  match r with Value _ s => s | AssertPanic _ s => s end.

(** The same result without the value returned. *)
Definition forget {S A} (r : result S A) : result S unit :=
  match r with Value _ s => Value tt s | AssertPanic c s => AssertPanic c s end.

(* ===================================================================== *)
(** ** [responseWriterDelegator] and [fancyResponseWriterDelegator] *)
(* ===================================================================== *)

Module Delegator.

Record responseWriterDelegator : Type := {
  ResponseWriter : http.ResponseWriter;
  handler : string;
  method : string;
  status : Z;
  written : Z;
  wroteHeader : bool
}.

Definition set_ResponseWriter (r : responseWriterDelegator) (w : http.ResponseWriter) :=
  {| ResponseWriter := w; handler := handler r; method := method r;
     status := status r; written := written r; wroteHeader := wroteHeader r |}.

Definition set_written (r : responseWriterDelegator) (n : Z) :=
  {| ResponseWriter := ResponseWriter r; handler := handler r; method := method r;
     status := status r; written := n; wroteHeader := wroteHeader r |}.

(** [Header] is promoted from the embedded [http.ResponseWriter]. *)
Definition Header (r : responseWriterDelegator) : responseWriterDelegator :=
  set_ResponseWriter r (snd (invoke CallHeader (ResponseWriter r))).

Definition WriteHeader (code : Z) (r : responseWriterDelegator) : responseWriterDelegator :=
  {| ResponseWriter := snd (invoke (CallWriteHeader code) (ResponseWriter r));
     handler := handler r; method := method r;
     status := code;
     written := written r;
     wroteHeader := true |}.

Definition Write (b : list byte) (r : responseWriterDelegator)
  : (Z * option error) * responseWriterDelegator :=
  let r := if negb (wroteHeader r) then WriteHeader http.StatusOK r else r in
  let '((n, err), w) := invoke (CallWrite b) (ResponseWriter r) in
  let r := set_written (set_ResponseWriter r w) (add64 (written r) n) in
  ((n, err), r).

(** The methods [fancyResponseWriterDelegator] adds to the embedded
    [*responseWriterDelegator]. *)

Definition CloseNotify (f : responseWriterDelegator) : result responseWriterDelegator unit :=
  if implements (ResponseWriter f) CloseNotifier
  then Value tt (set_ResponseWriter f (snd (invoke CallCloseNotify (ResponseWriter f))))
  else AssertPanic CloseNotifier f.

Definition Flush (f : responseWriterDelegator) : result responseWriterDelegator unit :=
  if implements (ResponseWriter f) Flusher
  then Value tt (set_ResponseWriter f (snd (invoke CallFlush (ResponseWriter f))))
  else AssertPanic Flusher f.

Definition Hijack (f : responseWriterDelegator) : result responseWriterDelegator (option error) :=
  if implements (ResponseWriter f) Hijacker
  then let '((_, err), w) := invoke CallHijack (ResponseWriter f) in
       Value err (set_ResponseWriter f w)
  else AssertPanic Hijacker f.

Definition ReadFrom (src : list byte) (f : responseWriterDelegator)
  : result responseWriterDelegator (Z * option error) :=
  let f := if negb (wroteHeader f) then WriteHeader http.StatusOK f else f in
  if implements (ResponseWriter f) ReaderFrom
  then let '((n, err), w) := invoke (CallReadFrom src) (ResponseWriter f) in
       Value (n, err) (set_written (set_ResponseWriter f w) (add64 (written f) n))
  else AssertPanic ReaderFrom f.

End Delegator.

(* ===================================================================== *)
(** ** [stats], [rwShared], [rwH1] and [rwH2] *)
(* ===================================================================== *)

Module Shared.

Record stats : Type := {
  handler : string;
  method : string;
  status : Z;
  written : Z;
  wroteHeader : bool
}.

(** The field [stats *stats] is [stats_]: the record type has the name. *)
Record rwShared : Type := {
  inner : http.ResponseWriter;
  stats_ : stats
}.

Definition set_inner (r : rwShared) (w : http.ResponseWriter) : rwShared :=
  {| inner := w; stats_ := stats_ r |}.

Definition set_written (r : rwShared) (n : Z) : rwShared :=
  {| inner := inner r;
     stats_ := {| handler := handler (stats_ r); method := method (stats_ r);
                  status := status (stats_ r); written := n;
                  wroteHeader := wroteHeader (stats_ r) |} |}.

Definition Header (r : rwShared) : rwShared :=
  set_inner r (snd (invoke CallHeader (inner r))).

Definition WriteHeader (code : Z) (r : rwShared) : rwShared :=
  {| inner := snd (invoke (CallWriteHeader code) (inner r));
     stats_ := {| handler := handler (stats_ r); method := method (stats_ r);
                  status := code;
                  written := written (stats_ r);
                  wroteHeader := true |} |}.

Definition Write (b : list byte) (r : rwShared) : (Z * option error) * rwShared :=
  let r := if negb (wroteHeader (stats_ r)) then WriteHeader http.StatusOK r else r in
  let '((n, err), w) := invoke (CallWrite b) (inner r) in
  ((n, err), set_written (set_inner r w) (add64 (written (stats_ r)) n)).

Definition WriteString (s : string) (r : rwShared) : result rwShared (Z * option error) :=
  let r := if negb (wroteHeader (stats_ r)) then WriteHeader http.StatusOK r else r in
  if implements (inner r) StringWriter
  then let '((n, err), w) := invoke (CallWriteString s) (inner r) in
       Value (n, err) (set_written (set_inner r w) (add64 (written (stats_ r)) n))
  else AssertPanic StringWriter r.

Definition CloseNotify (r : rwShared) : result rwShared unit :=
  if implements (inner r) CloseNotifier
  then Value tt (set_inner r (snd (invoke CallCloseNotify (inner r))))
  else AssertPanic CloseNotifier r.

Definition Flush (r : rwShared) : result rwShared unit :=
  if implements (inner r) Flusher
  then Value tt (set_inner r (snd (invoke CallFlush (inner r))))
  else AssertPanic Flusher r.

(** [rwH1] and [rwH2] are structs embedding an [rwShared]; their own
    methods act on it. *)

Definition Hijack (r : rwShared) : result rwShared (option error) :=
  if implements (inner r) Hijacker
  then let '((_, err), w) := invoke CallHijack (inner r) in Value err (set_inner r w)
  else AssertPanic Hijacker r.

Definition ReadFrom (reader : list byte) (r : rwShared) : result rwShared (Z * option error) :=
  let r := if negb (wroteHeader (stats_ r)) then WriteHeader http.StatusOK r else r in
  if implements (inner r) ReaderFrom
  then let '((n, err), w) := invoke (CallReadFrom reader) (inner r) in
       Value (n, err) (set_written (set_inner r w) (add64 (written (stats_ r)) n))
  else AssertPanic ReaderFrom r.

Definition Push (target : string) (r : rwShared) : result rwShared (option error) :=
  if implements (inner r) Pusher
  then let '((_, err), w) := invoke (CallPush target) (inner r) in Value err (set_inner r w)
  else AssertPanic Pusher r.

(** The three struct types and the optional operations in the method set
    of a pointer to each. *)
Inductive variant : Set := RwShared | RwH1 | RwH2.

Definition method_set (v : variant) (c : Capability) : bool :=
  match c with
  | StringWriter | CloseNotifier | Flusher => true
  | Hijacker | ReaderFrom => match v with RwH1 => true | _ => false end
  | Pusher => match v with RwH2 => true | _ => false end
  end.

(** The method that implements capability [c], called with [payload] or
    [text] where it takes an argument. *)
Definition call_optional (c : Capability) (payload : list byte) (text : string)
    (r : rwShared) : result rwShared unit :=
  match c with
  | CloseNotifier => CloseNotify r
  | Flusher => Flush r
  | Hijacker => forget (Hijack r)
  | ReaderFrom => forget (ReadFrom payload r)
  | Pusher => forget (Push text r)
  | StringWriter => forget (WriteString text r)
  end.

End Shared.

(* ===================================================================== *)
(** ** The wrapped handler *)
(* ===================================================================== *)

(** What [handlerFunc(rw, r)] does with [rw]: it returns, panics, or calls a
    method and goes on according to what the method returned. The optional
    methods are not part of [http.ResponseWriter]: the handler reaches them
    through a type assertion on [rw], either guarded ([DoAssert], the
    comma-ok form) or not (the [Do...] node of the method). *)
Inductive Handler : Type :=
| Return
| Panic
| DoHeader (k : Handler)
| DoWriteHeader (code : Z) (k : Handler)
| DoWrite (b : list byte) (k : Z -> option error -> Handler)
| DoAssert (c : Capability) (k : bool -> Handler)
| DoCloseNotify (k : Handler)
| DoFlush (k : Handler)
| DoHijack (k : option error -> Handler)
| DoReadFrom (src : list byte) (k : Z -> option error -> Handler)
| DoPush (target : string) (k : option error -> Handler)
| DoWriteString (s : string) (k : Z -> option error -> Handler).

Inductive Outcome : Set := Returned | Panicked.

(** The two values [rw] can hold: the [*responseWriterDelegator] itself or a
    [*fancyResponseWriterDelegator] around it. *)
Inductive Decorator : Set := plain | fancy.

(** The optional operations in the method set of each. *)
Definition exposes (rw : Decorator) (c : Capability) : bool :=
  match rw with
  | plain => false
  | fancy =>
      match c with
      | CloseNotifier | Flusher | Hijacker | ReaderFrom => true
      | Pusher | StringWriter => false
      end
  end.

(** The selection made for each request from the four probes of [w]. *)
Definition select (w : http.ResponseWriter) : Decorator :=
  let cn := implements w CloseNotifier in
  let fl := implements w Flusher in
  let hj := implements w Hijacker in
  let rf := implements w ReaderFrom in
  if cn && fl && hj && rf then fancy else plain.

(** The condition of that selection: the writer implements all of
    [http.CloseNotifier], [http.Flusher], [http.Hijacker], [io.ReaderFrom]. *)
Definition all_four (w : http.ResponseWriter) : bool :=
  implements w CloseNotifier && implements w Flusher
  && implements w Hijacker && implements w ReaderFrom.

Import Delegator.

(** An optional method called through [rw]: the handler's assertion on [rw]
    panics when the method is not in [rw]'s method set. *)
Definition through {A} (rw : Decorator) (c : Capability)
    (m : responseWriterDelegator -> result responseWriterDelegator A)
    (d : responseWriterDelegator) : result responseWriterDelegator A :=
  if exposes rw c then m d else AssertPanic c d.

(** The method of [fancyResponseWriterDelegator] that implements capability
    [c], if it has one. *)
Definition fancy_method (c : Capability) (payload : list byte)
  : option (responseWriterDelegator -> result responseWriterDelegator unit) :=
  match c with
  | CloseNotifier => Some CloseNotify
  | Flusher => Some Flush
  | Hijacker => Some (fun d => forget (Hijack d))
  | ReaderFrom => Some (fun d => forget (ReadFrom payload d))
  | Pusher | StringWriter => None
  end.

(** The call the underlying writer receives for capability [c]. *)
Definition call_for (c : Capability) (payload : list byte) (text : string) : Call :=
  match c with
  | CloseNotifier => CallCloseNotify
  | Flusher => CallFlush
  | Hijacker => CallHijack
  | ReaderFrom => CallReadFrom payload
  | Pusher => CallPush text
  | StringWriter => CallWriteString text
  end.

Fixpoint run (rw : Decorator) (h : Handler) (d : responseWriterDelegator)
  : Outcome * responseWriterDelegator :=
  match h with
  | Return => (Returned, d)
  | Panic => (Panicked, d)
  | DoHeader k => run rw k (Header d)
  | DoWriteHeader code k => run rw k (WriteHeader code d)
  | DoWrite b k => let '((n, err), d') := Write b d in run rw (k n err) d'
  | DoAssert c k => run rw (k (exposes rw c)) d
  | DoCloseNotify k =>
      match through rw CloseNotifier CloseNotify d with
      | Value _ d' => run rw k d'
      | AssertPanic _ d' => (Panicked, d')
      end
  | DoFlush k =>
      match through rw Flusher Flush d with
      | Value _ d' => run rw k d'
      | AssertPanic _ d' => (Panicked, d')
      end
  | DoHijack k =>
      match through rw Hijacker Hijack d with
      | Value err d' => run rw (k err) d'
      | AssertPanic _ d' => (Panicked, d')
      end
  | DoReadFrom src k =>
      match through rw ReaderFrom (ReadFrom src) d with
      | Value (n, err) d' => run rw (k n err) d'
      | AssertPanic _ d' => (Panicked, d')
      end
  | DoPush _ _ => (Panicked, d)
  | DoWriteString _ _ => (Panicked, d)
  end.

(* ===================================================================== *)
(** ** The collectors and the instrumented handler *)
(* ===================================================================== *)

(** A [float64] as the middleware computes it: a converted integer or a
    quotient of two such. *)
Inductive float64 : Set :=
| float64_of_int (z : Z)
| float64_quot (a b : float64).

(** [time.Second], a [time.Duration] in nanoseconds. *)
Definition time_Second : Z := 1000000000.

(** The state of the four collectors the handler reports to: the gauge and
    the counter are vectors indexed by their label values (a child that was
    never touched reads 0), the histogram and the summary are the
    observations made so far. *)
Record Metrics : Type := {
  inFlightReq : gmap string Z;
  reqCnt : gmap (string * string) Z;
  reqDur : list float64;
  resSz : list float64
}.

Definition gauge_value (g : gmap string Z) (l : string) : Z := default 0 (g !! l).
Definition counter_value (c : gmap (string * string) Z) (l : string * string) : Z :=
  default 0 (c !! l).

Definition gauge_Inc (l : string) (m : Metrics) : Metrics :=
  {| inFlightReq := <[l := gauge_value (inFlightReq m) l + 1]> (inFlightReq m);
     reqCnt := reqCnt m; reqDur := reqDur m; resSz := resSz m |}.

Definition gauge_Dec (l : string) (m : Metrics) : Metrics :=
  {| inFlightReq := <[l := gauge_value (inFlightReq m) l - 1]> (inFlightReq m);
     reqCnt := reqCnt m; reqDur := reqDur m; resSz := resSz m |}.

Definition counter_Inc (l : string * string) (m : Metrics) : Metrics :=
  {| inFlightReq := inFlightReq m;
     reqCnt := <[l := counter_value (reqCnt m) l + 1]> (reqCnt m);
     reqDur := reqDur m; resSz := resSz m |}.

Definition reqDur_Observe (x : float64) (m : Metrics) : Metrics :=
  {| inFlightReq := inFlightReq m; reqCnt := reqCnt m;
     reqDur := reqDur m ++ [x]; resSz := resSz m |}.

Definition resSz_Observe (x : float64) (m : Metrics) : Metrics :=
  {| inFlightReq := inFlightReq m; reqCnt := reqCnt m;
     reqDur := reqDur m; resSz := resSz m ++ [x] |}.

(** [&responseWriterDelegator{ResponseWriter: w}]: the other fields hold
    their zero values. *)
Definition new_delegate (w : http.ResponseWriter) : responseWriterDelegator :=
  {| ResponseWriter := w; handler := ""; method := "";
     status := 0; written := 0; wroteHeader := false |}.

Section Serve.

Variable ToLower : string -> string.
Variable handlerFunc : http.Request -> Handler.

(** The [http.HandlerFunc] returned by [InstrumentHandlerFuncWithOpts],
    run on [(w, r)]; [since] is what [time.Since(now)] reads after the
    handler has returned. The decrement of the gauge is deferred: it runs
    when the function returns and when it panics. The client library is
    taken to accept the label values: [WithLabelValues] returns the child. *)
Definition serve (w : http.ResponseWriter) (r : http.Request) (since : Z) (m : Metrics)
  : Outcome * Metrics * http.ResponseWriter :=
  let method := sanitizeMethod ToLower (Method r) in
  let m := gauge_Inc (Method r) m in
  let delegate := new_delegate w in
  let rw := select w in
  let '(out, delegate) := run rw (handlerFunc r) delegate in
  let m :=
    match out with
    | Returned =>
        let elapsed := float64_quot (float64_of_int since) (float64_of_int time_Second) in
        let code := sanitizeCode (status delegate) in
        let m := counter_Inc (method, code) m in
        let m := reqDur_Observe elapsed m in
        resSz_Observe (float64_of_int (written delegate)) m
    | Panicked => m
    end in
  (out, gauge_Dec (Method r) m, ResponseWriter delegate).

End Serve.

(* ===================================================================== *)
(** ** Construction: the four collectors and their registration *)
(* ===================================================================== *)

Module prometheus.

(** [prometheus.Opts]; [ConstLabels] is a [map[string]string]. *)
Record Opts : Type := {
  Namespace : string;
  Subsystem : string;
  Name : string;
  Help : string;
  ConstLabels : gmap string string
}.

Inductive CollectorKind : Set := GaugeVec | CounterVec | Histogram | Summary.

(** A collector as [NewGaugeVec], [NewCounterVec], [NewHistogram] and
    [NewSummary] are asked to build it: its options, and the variable
    labels, buckets or objectives that come with its kind. *)
Record Collector : Type := {
  kind : CollectorKind;
  opts : Opts;
  labelNames : list string;
  Buckets : list Q;
  Objectives : list (Q * Q)
}.

(** The error [Register] returns. *)
Inductive RegisterError : Type :=
| AlreadyRegisteredError (ExistingCollector NewCollector : Collector)
| OtherError (e : error).

End prometheus.
Export prometheus.

Definition instLabels : list string := ["method"; "code"].

(** [InstrumentHandlerFunc] builds these options from the handler name. *)
Definition InstrumentHandlerFunc_opts (handlerName : string) : Opts :=
  {| Namespace := ""; Subsystem := "http"; Name := ""; Help := "";
     ConstLabels := {[ "handler" := handlerName ]} |}.

Definition new_inFlightReq (o : Opts) : Collector :=
  {| kind := GaugeVec;
     opts := {| Namespace := Namespace o; Subsystem := Subsystem o;
                Name := "inflight_requests";
                Help := "In-flight HTTP requests.";
                ConstLabels := ∅ |};
     labelNames := ["method"]; Buckets := []; Objectives := [] |}.

Definition new_reqCnt (o : Opts) : Collector :=
  {| kind := CounterVec;
     opts := {| Namespace := Namespace o; Subsystem := Subsystem o;
                Name := "requests_total";
                Help := "Total number of HTTP requests made.";
                ConstLabels := ConstLabels o |};
     labelNames := instLabels; Buckets := []; Objectives := [] |}.

Definition new_reqDur (o : Opts) : Collector :=
  {| kind := Histogram;
     opts := {| Namespace := Namespace o; Subsystem := Subsystem o;
                Name := "request_duration_seconds";
                Help := "The HTTP request latencies in seconds.";
                ConstLabels := ∅ |};
     labelNames := [];
     Buckets := [5 # 100; 1 # 10; 2 # 10; 3 # 10; 4 # 10; 5 # 10; 6 # 10; 7 # 10;
                 8 # 10; 9 # 10; 1 # 1; 2 # 1; 5 # 1; 10 # 1; 20 # 1; 30 # 1; 40 # 1; 50 # 1]%Q;
     Objectives := [] |}.

Definition new_resSz (o : Opts) : Collector :=
  {| kind := Summary;
     opts := {| Namespace := Namespace o; Subsystem := Subsystem o;
                Name := "response_size_bytes";
                Help := "The HTTP response sizes in bytes.";
                ConstLabels := ConstLabels o |};
     labelNames := []; Buckets := [];
     Objectives := [(5 # 10, 5 # 100); (9 # 10, 1 # 100); (99 # 100, 1 # 1000)]%Q |}.

(** The four handles the returned closure captures. *)
Record Handles : Type := {
  h_inFlightReq : Collector;
  h_reqCnt : Collector;
  h_reqDur : Collector;
  h_resSz : Collector
}.

(** What a panic at construction carries: the error [Register] returned, or
    the failed assertion of the existing collector to the Go type the
    middleware holds for that metric. *)
Inductive PanicValue : Type :=
| PanicErr (e : RegisterError)
| PanicConversion (k : CollectorKind) (existing : Collector).

Section Construction.

(** The registry and [prometheus.Register] belong to the client library.
    [asserts_to k c] tells whether the dynamic type of [c] passes the type
    assertion made for the metric of kind [k]: [*prometheus.GaugeVec],
    [*prometheus.CounterVec], [prometheus.Histogram] or
    [prometheus.Summary]. *)
Variable Registry : Type.
Variable Register : Collector -> Registry -> option RegisterError * Registry.
Variable asserts_to : CollectorKind -> Collector -> bool.

(** One block [if err := prometheus.Register(c); err != nil { ... }]: the
    handle kept, or the panic. *)
Definition register_or_reuse (c : Collector) (reg : Registry)
  : (Collector + PanicValue) * Registry :=
  match Register c reg with
  | (None, reg') => (inl c, reg')
  | (Some (AlreadyRegisteredError existing new), reg') =>
      if asserts_to (kind c) existing
      then (inl existing, reg')
      else (inr (PanicConversion (kind c) existing), reg')
  | (Some (OtherError e), reg') => (inr (PanicErr (OtherError e)), reg')
  end.

(** [InstrumentHandlerFuncWithOpts] up to its [return]: the handles of the
    closure, or the panic that ends the call. *)
Definition InstrumentHandlerFuncWithOpts (o : Opts) (reg : Registry)
  : (Handles + PanicValue) * Registry :=
  match register_or_reuse (new_inFlightReq o) reg with
  | (inr p, reg) => (inr p, reg)
  | (inl g, reg) =>
      match register_or_reuse (new_reqCnt o) reg with
      | (inr p, reg) => (inr p, reg)
      | (inl c, reg) =>
          match register_or_reuse (new_reqDur o) reg with
          | (inr p, reg) => (inr p, reg)
          | (inl h, reg) =>
              match register_or_reuse (new_resSz o) reg with
              | (inr p, reg) => (inr p, reg)
              | (inl s, reg) =>
                  (inl {| h_inFlightReq := g; h_reqCnt := c;
                          h_reqDur := h; h_resSz := s |}, reg)
              end
          end
      end
  end.

Definition InstrumentHandlerFunc (handlerName : string) (reg : Registry) :=
  InstrumentHandlerFuncWithOpts (InstrumentHandlerFunc_opts handlerName) reg.

End Construction.

(** The registration outcomes the specification distinguishes. An answer of
    [Register] is recoverable when it is no error, or the error says that a
    collector of the same identity is registered already and that collector
    is compatible, that is, passes the type assertion; the handle kept is
    then the existing collector, otherwise the new one. *)
Definition recoverable (asserts_to : CollectorKind -> Collector -> bool)
    (c : Collector) (answer : option RegisterError) : bool :=
  match answer with
  | None => true
  | Some (AlreadyRegisteredError existing _) => asserts_to (kind c) existing
  | Some (OtherError _) => false
  end.

Definition kept_handle (c : Collector) (answer : option RegisterError) : Collector :=
  match answer with
  | Some (AlreadyRegisteredError existing _) => existing
  | _ => c
  end.

(** A registry to run the construction on: the collectors registered so
    far, one per fully qualified name and set of constant labels; a second
    registration under the same identity is answered with the first. *)
Definition same_identity (a b : Collector) : bool :=
  String.eqb (Namespace (opts a)) (Namespace (opts b))
  && String.eqb (Subsystem (opts a)) (Subsystem (opts b))
  && String.eqb (Name (opts a)) (Name (opts b))
  && bool_decide (ConstLabels (opts a) = ConstLabels (opts b)).

Definition list_Register (c : Collector) (reg : list Collector)
  : option RegisterError * list Collector :=
  match List.find (same_identity c) reg with
  | Some existing => (Some (AlreadyRegisteredError existing c), reg)
  | None => (None, (reg ++ [c])%list)
  end.

Definition kind_eqb (a b : CollectorKind) : bool :=
  match a, b with
  | GaugeVec, GaugeVec | CounterVec, CounterVec
  | Histogram, Histogram | Summary, Summary => true
  | _, _ => false
  end.

Definition same_kind (k : CollectorKind) (c : Collector) : bool := kind_eqb k (kind c).

(* ===================================================================== *)
(** ** Reading the calls a writer has received *)
(* ===================================================================== *)

(** The calls [w'] has received beyond those of [w], for [w'] a later state
    of the writer [w]. *)
Definition forwarded (w w' : http.ResponseWriter) : list Call :=
  drop (length (received w)) (received w').

(** [w'] is a later state of [w]: same dynamic type, same behaviour, and the
    calls of [w] followed by those forwarded since. *)
Definition extends (w w' : http.ResponseWriter) : Prop :=
  implements w' = implements w /\
  answers w' = answers w /\
  received w' = (received w ++ forwarded w w')%list.

(** The code of the last [WriteHeader] among [calls], [s] when there is
    none. *)
Fixpoint last_status (calls : list Call) (s : Z) : Z :=
  match calls with
  | [] => s
  | CallWriteHeader code :: calls => last_status calls code
  | _ :: calls => last_status calls s
  end.

(** The byte count after [calls], starting from [acc]: each [Write] and
    [ReadFrom] adds what the writer, having received [pre] and the calls
    before it, reports for it. *)
Fixpoint reported (ans : list Call -> Call -> Z * option error)
    (pre calls : list Call) (acc : Z) : Z :=
  match calls with
  | [] => acc
  | c :: calls =>
      reported ans (pre ++ [c]) calls
        match c with
        | CallWrite _ | CallReadFrom _ => add64 acc (wrap64 (fst (ans pre c)))
        | _ => acc
        end
  end.

(** The number of bytes the [Write] calls among [calls] asked to write. *)
Fixpoint requested (calls : list Call) : Z :=
  match calls with
  | [] => 0
  | CallWrite b :: calls => Z.of_nat (length b) + requested calls
  | _ :: calls => requested calls
  end.

Definition is_WriteHeader (c : Call) : bool :=
  match c with CallWriteHeader _ => true | _ => false end.

Definition is_ReadFrom (c : Call) : bool :=
  match c with CallReadFrom _ => true | _ => false end.

(** The projections of what [serve] returns. *)
Definition outcome_of (x : Outcome * Metrics * http.ResponseWriter) : Outcome := fst (fst x).
Definition metrics_of (x : Outcome * Metrics * http.ResponseWriter) : Metrics := snd (fst x).
Definition writer_of (x : Outcome * Metrics * http.ResponseWriter) : http.ResponseWriter := snd x.

(** One method of the decorator run on the delegator, and any number of
    them in a row: what a handler can make of the delegator it is given. *)
Inductive step : responseWriterDelegator -> responseWriterDelegator -> Prop :=
| step_Header d : step d (Header d)
| step_WriteHeader code d : step d (WriteHeader code d)
| step_Write b d : step d (snd (Write b d))
| step_CloseNotify d : step d (state_of (CloseNotify d))
| step_Flush d : step d (state_of (Flush d))
| step_Hijack d : step d (state_of (Hijack d))
| step_ReadFrom src d : step d (state_of (ReadFrom src d)).

Inductive steps : responseWriterDelegator -> responseWriterDelegator -> Prop :=
| steps_done d : steps d d
| steps_next d d1 d2 : step d d1 -> steps d1 d2 -> steps d d2.

(** What one call leaves behind: the calls it forwarded, in order, and the
    fields of the delegator. *)
Record effect (d d' : responseWriterDelegator) (calls : list Call) : Prop := {
  eff_received :
    received (ResponseWriter d') = (received (ResponseWriter d) ++ calls)%list;
  eff_implements : implements (ResponseWriter d') = implements (ResponseWriter d);
  eff_answers : answers (ResponseWriter d') = answers (ResponseWriter d);
  eff_status : status d' = last_status calls (status d);
  eff_wroteHeader :
    wroteHeader d' = wroteHeader d || existsb is_WriteHeader calls;
  eff_written :
    written d' =
    reported (answers (ResponseWriter d)) (received (ResponseWriter d)) calls (written d)
}.


(* ===================================================================== *)
(** ** Sample writers, handlers and collectors *)
(* ===================================================================== *)

(** A writer that writes everything it is given and reports no error. *)
Definition full_answers (_ : list Call) (c : Call) : Z * option error :=
  match c with
  | CallWrite b => (Z.of_nat (length b), None)
  | CallWriteString s => (Z.of_nat (String.length s), None)
  | CallReadFrom src => (Z.of_nat (length src), None)
  | _ => (0, None)
  end.

(** A writer that writes at most two bytes of each payload and reports an
    error. *)
Definition short_answers (_ : list Call) (c : Call) : Z * option error :=
  match c with
  | CallWrite b => (Z.min 2 (Z.of_nat (length b)), Some (Err "short write"))
  | _ => (0, None)
  end.

Definition writer_with (caps : list Capability) (ans : list Call -> Call -> Z * option error)
  : http.ResponseWriter :=
  {| implements := fun c => bool_decide (c ∈ caps); received := []; answers := ans |}.

(** Only the mandatory methods. *)
Definition bare_writer : http.ResponseWriter := writer_with [] full_answers.
(** Only [Flush] besides them. *)
Definition flush_writer : http.ResponseWriter := writer_with [Flusher] full_answers.
(** What an HTTP/1 connection offers. *)
Definition h1_writer : http.ResponseWriter :=
  writer_with [CloseNotifier; Flusher; Hijacker; ReaderFrom; StringWriter] full_answers.
(** What an HTTP/2 stream offers. *)
Definition h2_writer : http.ResponseWriter :=
  writer_with [CloseNotifier; Flusher; Pusher; StringWriter] full_answers.
Definition short_writer : http.ResponseWriter := writer_with [] short_answers.

(** [rwShared{inner: w, stats: &stats{}}]. *)
Definition new_rwShared (w : http.ResponseWriter) : Shared.rwShared :=
  {| Shared.inner := w;
     Shared.stats_ := {| Shared.handler := ""; Shared.method := ""; Shared.status := 0;
                         Shared.written := 0; Shared.wroteHeader := false |} |}.

Definition bytes (s : string) : list byte := list_byte_of_string s.

Definition get_request : http.Request := {| Method := "GET"; URL := "/" |}.

Definition no_metrics : Metrics :=
  {| inFlightReq := ∅; reqCnt := ∅; reqDur := []; resSz := [] |}.

(** [w.WriteHeader(200); w.WriteHeader(404)]. *)
Definition twice_handler (_ : http.Request) : Handler :=
  DoWriteHeader 200 (DoWriteHeader 404 Return).

(** [w.Write("abc"); w.WriteHeader(404)]. *)
Definition late_status_handler (_ : http.Request) : Handler :=
  DoWrite (bytes "abc") (fun _ _ => DoWriteHeader 404 Return).

(** [w.Write("done.")], the default answer of the demonstration server. *)
Definition done_handler (_ : http.Request) : Handler :=
  DoWrite (bytes "done.") (fun _ _ => Return).

(** [w.WriteHeader(404); w.Write("abc")]. *)
Definition not_found_handler (_ : http.Request) : Handler :=
  DoWriteHeader 404 (DoWrite (bytes "abc") (fun _ _ => Return)).

(** [w.(http.Flusher).Flush()]. *)
Definition flush_handler (_ : http.Request) : Handler := DoFlush Return.

(** A handler that writes and then panics. *)
Definition panic_handler (_ : http.Request) : Handler :=
  DoWrite (bytes "oops") (fun _ _ => Panic).

(** A handler that returns without touching the writer. *)
Definition silent_handler (_ : http.Request) : Handler := Return.

(* ===================================================================== *)
(** ** Further readings of the calls and of the two families *)
(* ===================================================================== *)

(** The calls the handler makes on the decorator it is given, in order, as
    it runs: its own [WriteHeader], [Write] and other calls, whatever the
    decorator does with them. A call of an optional method that the
    decorator does not have is not made: the handler's assertion fails
    first. *)
Fixpoint calls_made (rw : Decorator) (h : Handler) (d : responseWriterDelegator)
  : list Call :=
  match h with
  | Return => []
  | Panic => []
  | DoHeader k => CallHeader :: calls_made rw k (Header d)
  | DoWriteHeader code k => CallWriteHeader code :: calls_made rw k (WriteHeader code d)
  | DoWrite b k =>
      CallWrite b :: (let '((n, err), d') := Write b d in calls_made rw (k n err) d')
  | DoAssert c k => calls_made rw (k (exposes rw c)) d
  | DoCloseNotify k =>
      if exposes rw CloseNotifier
      then CallCloseNotify ::
           match CloseNotify d with
           | Value _ d' => calls_made rw k d'
           | AssertPanic _ _ => []
           end
      else []
  | DoFlush k =>
      if exposes rw Flusher
      then CallFlush ::
           match Flush d with
           | Value _ d' => calls_made rw k d'
           | AssertPanic _ _ => []
           end
      else []
  | DoHijack k =>
      if exposes rw Hijacker
      then CallHijack ::
           match Hijack d with
           | Value err d' => calls_made rw (k err) d'
           | AssertPanic _ _ => []
           end
      else []
  | DoReadFrom src k =>
      if exposes rw ReaderFrom
      then CallReadFrom src ::
           match ReadFrom src d with
           | Value (n, err) d' => calls_made rw (k n err) d'
           | AssertPanic _ _ => []
           end
      else []
  | DoPush _ _ => []
  | DoWriteString _ _ => []
  end.

(** Whether, as the handler runs, a method of the decorator panics on its
    type assertion of the underlying writer. *)
Fixpoint method_panics (rw : Decorator) (h : Handler) (d : responseWriterDelegator) : bool :=
  match h with
  | Return => false
  | Panic => false
  | DoHeader k => method_panics rw k (Header d)
  | DoWriteHeader code k => method_panics rw k (WriteHeader code d)
  | DoWrite b k => let '((n, err), d') := Write b d in method_panics rw (k n err) d'
  | DoAssert c k => method_panics rw (k (exposes rw c)) d
  | DoCloseNotify k =>
      if exposes rw CloseNotifier
      then match CloseNotify d with
           | Value _ d' => method_panics rw k d'
           | AssertPanic _ _ => true
           end
      else false
  | DoFlush k =>
      if exposes rw Flusher
      then match Flush d with
           | Value _ d' => method_panics rw k d'
           | AssertPanic _ _ => true
           end
      else false
  | DoHijack k =>
      if exposes rw Hijacker
      then match Hijack d with
           | Value err d' => method_panics rw (k err) d'
           | AssertPanic _ _ => true
           end
      else false
  | DoReadFrom src k =>
      if exposes rw ReaderFrom
      then match ReadFrom src d with
           | Value (n, err) d' => method_panics rw (k n err) d'
           | AssertPanic _ _ => true
           end
      else false
  | DoPush _ _ => false
  | DoWriteString _ _ => false
  end.

(** The decimal string read back as an integer. *)
Definition parse_decimal (s : string) : option Z :=
  option_map Z.of_int (NilZero.int_of_string s).

(** No [Write], [WriteString] or [ReadFrom] among [calls] comes before a
    [WriteHeader], [seen] telling whether one was received before them. *)
Fixpoint headers_first (seen : bool) (calls : list Call) : bool :=
  match calls with
  | [] => true
  | CallWriteHeader _ :: calls => headers_first true calls
  | (CallWrite _ | CallWriteString _ | CallReadFrom _) :: calls =>
      seen && headers_first seen calls
  | _ :: calls => headers_first seen calls
  end.

(** The bytes a call offers to the writer. *)
Definition payload_size (c : Call) : Z :=
  match c with
  | CallWrite b => Z.of_nat (length b)
  | CallReadFrom src => Z.of_nat (length src)
  | CallWriteString s => Z.of_nat (String.length s)
  | _ => 0
  end.

(** The calls whose count the delegator adds to [written]. *)
Definition is_body (c : Call) : bool :=
  match c with CallWrite _ | CallReadFrom _ => true | _ => false end.

(** The bytes the [Write] and [ReadFrom] calls among [calls] offer. *)
Fixpoint offered (calls : list Call) : Z :=
  match calls with
  | [] => 0
  | c :: calls =>
      match c with
      | CallWrite _ | CallReadFrom _ => payload_size c + offered calls
      | _ => offered calls
      end
  end.

(** A writer that keeps the contract of [io.Writer] and [io.ReaderFrom]:
    the count it returns is between 0 and the bytes offered. *)
Definition honours_contract (ans : list Call -> Call -> Z * option error) : Prop :=
  forall pre c, 0 <= fst (ans pre c) <= payload_size c.

(** The [rwShared] with the fields of a delegator. *)
Definition to_shared (d : responseWriterDelegator) : Shared.rwShared :=
  {| Shared.inner := ResponseWriter d;
     Shared.stats_ := {| Shared.handler := handler d; Shared.method := method d;
                         Shared.status := status d; Shared.written := written d;
                         Shared.wroteHeader := wroteHeader d |} |}.

Definition map_state {S T A} (f : S -> T) (r : result S A) : result T A :=
  match r with
  | Value a s => Value a (f s)
  | AssertPanic c s => AssertPanic c (f s)
  end.

(** The panic a registration answer that is not recoverable ends in. *)
Definition panic_of (asserts_to : CollectorKind -> Collector -> bool)
    (c : Collector) (answer : option RegisterError) : option PanicValue :=
  match answer with
  | None => None
  | Some (AlreadyRegisteredError existing _) =>
      if asserts_to (kind c) existing then None
      else Some (PanicConversion (kind c) existing)
  | Some (OtherError e) => Some (PanicErr (OtherError e))
  end.

(* ===================================================================== *)
(** ** [computeApproximateRequestSize] *)
(* ===================================================================== *)

Module reqsize.

(** The fields of [*http.Request] the function reads: [URL] is
    [r.URL.String()], [None] for a nil [r.URL]; [Header] lists the entries
    of the header map in the order the [range] loop meets them. *)
Record Request : Type := {
  URL : option string;
  Method : string;
  Proto : string;
  Header : list (string * list string);
  Host : string;
  ContentLength : Z
}.

Definition len (s : string) : Z := Z.of_nat (String.length s).

(** The two nested [range] loops over the header. *)
Definition add_values (s : Z) (values : list string) : Z :=
  fold_left (fun s value => add64 s (len value)) values s.

Definition add_header (s : Z) (h : list (string * list string)) : Z :=
  fold_left (fun s entry => add_values (add64 s (len (fst entry))) (snd entry)) h s.

(** The value sent on the channel the function returns. *)
Definition computeApproximateRequestSize (r : Request) : Z :=
  let s := 0 in
  let s := match URL r with Some u => add64 s (len u) | None => s end in
  let s := add64 s (len (Method r)) in
  let s := add64 s (len (Proto r)) in
  let s := add_header s (Header r) in
  let s := add64 s (len (Host r)) in
  let s := if (ContentLength r =? -1)%Z then s else add64 s (wrap64 (ContentLength r)) in
  s.

(** The same size without the bounds of [int]. *)
Definition values_sum (values : list string) : Z :=
  fold_right (fun value acc => len value + acc) 0 values.

Definition header_sum (h : list (string * list string)) : Z :=
  fold_right (fun entry acc => len (fst entry) + values_sum (snd entry) + acc) 0 h.

Definition plain_size (r : Request) : Z :=
  match URL r with Some u => len u | None => 0 end
  + len (Method r) + len (Proto r) + header_sum (Header r) + len (Host r)
  + (if (ContentLength r =? -1)%Z then 0 else ContentLength r).

End reqsize.

(** The same request with another header. *)
Definition with_Header (r : reqsize.Request) (h : list (string * list string))
  : reqsize.Request :=
  {| reqsize.URL := reqsize.URL r; reqsize.Method := reqsize.Method r;
     reqsize.Proto := reqsize.Proto r; reqsize.Header := h;
     reqsize.Host := reqsize.Host r; reqsize.ContentLength := reqsize.ContentLength r |}.

(** The same options under another [Name] and [Help]. *)
Definition with_Name_Help (o : Opts) (name help : string) : Opts :=
  {| Namespace := Namespace o; Subsystem := Subsystem o; Name := name; Help := help;
     ConstLabels := ConstLabels o |}.

(** [w.Write("abcd"); w.Write("efgh")]. *)
Definition two_writes_handler (_ : http.Request) : Handler :=
  DoWrite (bytes "abcd") (fun _ _ => DoWrite (bytes "efgh") (fun _ _ => Return)).

(** A request of the demonstration server. *)
Definition sample_sized_request : reqsize.Request :=
  {| reqsize.URL := Some "/?code=404"; reqsize.Method := "GET"; reqsize.Proto := "HTTP/1.1";
     reqsize.Header := [("Accept", ["*/*"]); ("User-Agent", ["curl"; "7"])];
     reqsize.Host := "localhost:8080"; reqsize.ContentLength := 0 |}.

(* ===================================================================== *)
(** * Properties *)
(* ===================================================================== *)

(** ** Go integers *)

Lemma wrap64_range z : in_int64 (wrap64 z).
Proof.
  unfold in_int64, wrap64, min_int64, max_int64.
  pose proof (Z.mod_pos_bound (z + 2 ^ 63) (2 ^ 64) ltac:(lia)). lia.
Qed.

Lemma wrap64_id z : in_int64 z -> wrap64 z = z.
Proof.
  unfold in_int64, wrap64, min_int64, max_int64. intros Hz.
  rewrite Z.mod_small by lia. lia.
Qed.

Lemma add64_exact a b : in_int64 (a + b) -> add64 a b = a + b.
Proof. apply wrap64_id. Qed.

(** ** Labels *)

Example sanitizeCode_404 : sanitizeCode 404 = "404".
Proof. reflexivity. Qed.

Example sanitizeCode_default : sanitizeCode (-7) = "-7" /\ sanitizeCode 299 = "299".
Proof. split; reflexivity. Qed.

(** The listed cases of [sanitizeCode] are the decimal strings that the
    default case would give: the label is the decimal form of the status. *)
Lemma sanitizeCode_Itoa s : sanitizeCode s = Itoa s.
Proof.
  destruct s as [|p|p]; try reflexivity.
  do 10 (try (destruct p as [p|p|]; try reflexivity)).
Qed.

Example sanitizeMethod_get : sanitizeMethod ToLowerASCII "GET" = "get".
Proof. reflexivity. Qed.

Example sanitizeMethod_default : sanitizeMethod ToLowerASCII "Patch" = "patch".
Proof. reflexivity. Qed.

(** ** The underlying writer only ever receives more calls *)

Lemma forwarded_app w w' new :
  received w' = (received w ++ new)%list -> forwarded w w' = new.
Proof. unfold forwarded. intros ->. apply drop_app_length. Qed.

Lemma forwarded_refl w : forwarded w w = [].
Proof. apply forwarded_app. by rewrite app_nil_r. Qed.

Lemma extends_refl w : extends w w.
Proof.
  unfold extends. rewrite forwarded_refl, app_nil_r. done.
Qed.

Lemma extends_trans w1 w2 w3 :
  extends w1 w2 -> extends w2 w3 ->
  extends w1 w3 /\ forwarded w1 w3 = (forwarded w1 w2 ++ forwarded w2 w3)%list.
Proof.
  intros (Hi1 & Ha1 & Hr1) (Hi2 & Ha2 & Hr2).
  assert (Hr : received w3 = (received w1 ++ (forwarded w1 w2 ++ forwarded w2 w3))%list).
  { rewrite Hr2, Hr1 at 1. by rewrite <- app_assoc. }
  pose proof (forwarded_app _ _ _ Hr) as Hf.
  repeat split; try congruence.
Qed.

Lemma invoke_writer c w :
  snd (invoke c w) =
  {| implements := implements w; received := received w ++ [c]; answers := answers w |}.
Proof. unfold invoke. by destruct (answers w (received w) c). Qed.

Lemma invoke_answer c w :
  fst (invoke c w) =
  (wrap64 (fst (answers w (received w) c)), snd (answers w (received w) c)).
Proof. unfold invoke. by destruct (answers w (received w) c). Qed.

Lemma invoke_forwarded c w : forwarded w (snd (invoke c w)) = [c].
Proof. apply forwarded_app. by rewrite invoke_writer. Qed.

Lemma invoke_extends c w : extends w (snd (invoke c w)).
Proof.
  unfold extends. rewrite invoke_forwarded, invoke_writer. done.
Qed.

Lemma invoke_int64 c w : in_int64 (fst (fst (invoke c w))).
Proof. rewrite invoke_answer. apply wrap64_range. Qed.

Lemma last_status_app a b s : last_status (a ++ b) s = last_status b (last_status a s).
Proof.
  revert s. induction a as [|c a IH]; intros s; [done|].
  destruct c; simpl; apply IH.
Qed.

Lemma requested_app a b : requested (a ++ b) = requested a + requested b.
Proof.
  induction a as [|c a IH]; [done|].
  destruct c; simpl; rewrite ?IH; lia.
Qed.

Lemma requested_nonneg a : 0 <= requested a.
Proof. induction a as [|c a IH]; [done|]. destruct c; simpl; lia. Qed.

Lemma reported_app ans pre a b acc :
  reported ans pre (a ++ b) acc = reported ans (pre ++ a) b (reported ans pre a acc).
Proof.
  revert pre acc. induction a as [|c a IH]; intros pre acc; simpl.
  - by rewrite app_nil_r.
  - rewrite IH. by rewrite <- app_assoc.
Qed.


(** ** The methods of the delegator, one call at a time *)

Lemma Write_unfold b d :
  Write b d =
  let d1 := if wroteHeader d then d else WriteHeader http.StatusOK d in
  let r := invoke (CallWrite b) (ResponseWriter d1) in
  (fst r, set_written (set_ResponseWriter d1 (snd r)) (add64 (written d1) (fst (fst r)))).
Proof.
  unfold Write. destruct (wroteHeader d); simpl;
    match goal with |- context [invoke ?c ?w] => destruct (invoke c w) as [[n err] w'] end;
    reflexivity.
Qed.

Lemma ReadFrom_unfold src d :
  ReadFrom src d =
  let d1 := if wroteHeader d then d else WriteHeader http.StatusOK d in
  if implements (ResponseWriter d1) ReaderFrom
  then let r := invoke (CallReadFrom src) (ResponseWriter d1) in
       Value (fst r) (set_written (set_ResponseWriter d1 (snd r)) (add64 (written d1) (fst (fst r))))
  else AssertPanic ReaderFrom d1.
Proof.
  unfold ReadFrom. destruct (wroteHeader d); simpl;
    match goal with |- context [if ?b then _ else _] => destruct b end; try reflexivity;
    match goal with |- context [invoke ?c ?w] => destruct (invoke c w) as [[n err] w'] end;
    reflexivity.
Qed.

Lemma Hijack_unfold d :
  Hijack d =
  if implements (ResponseWriter d) Hijacker
  then let r := invoke CallHijack (ResponseWriter d) in
       Value (snd (fst r)) (set_ResponseWriter d (snd r))
  else AssertPanic Hijacker d.
Proof.
  unfold Hijack. destruct (implements _ _); [|reflexivity].
  by destruct (invoke _ _) as [[n err] w'].
Qed.

Lemma effect_Header d : effect d (Header d) [CallHeader].
Proof.
  unfold Header. split; simpl; rewrite ?invoke_writer; simpl; try done.
  by rewrite orb_false_r.
Qed.

Lemma effect_WriteHeader code d : effect d (WriteHeader code d) [CallWriteHeader code].
Proof.
  unfold WriteHeader. split; simpl; rewrite ?invoke_writer; simpl; try done.
  by rewrite orb_true_r.
Qed.

Lemma effect_Write b d :
  effect d (snd (Write b d))
    (if wroteHeader d then [CallWrite b] else [CallWriteHeader http.StatusOK; CallWrite b]).
Proof.
  rewrite Write_unfold. destruct (wroteHeader d) eqn:Hw; simpl;
    split; simpl; rewrite ?invoke_answer, ?invoke_writer; simpl; rewrite ?invoke_writer; simpl;
    rewrite ?Hw, <- ?app_assoc; done.
Qed.

Lemma effect_refl d : effect d d [].
Proof. split; simpl; rewrite ?app_nil_r, ?orb_false_r; done. Qed.

Lemma effect_CloseNotify d :
  effect d (state_of (CloseNotify d))
    (if implements (ResponseWriter d) CloseNotifier then [CallCloseNotify] else []).
Proof.
  unfold CloseNotify. destruct (implements _ _); simpl; [|apply effect_refl].
  split; simpl; rewrite ?invoke_writer; simpl; rewrite ?orb_false_r; done.
Qed.

Lemma effect_Flush d :
  effect d (state_of (Flush d))
    (if implements (ResponseWriter d) Flusher then [CallFlush] else []).
Proof.
  unfold Flush. destruct (implements _ _); simpl; [|apply effect_refl].
  split; simpl; rewrite ?invoke_writer; simpl; rewrite ?orb_false_r; done.
Qed.

Lemma effect_Hijack d :
  effect d (state_of (Hijack d))
    (if implements (ResponseWriter d) Hijacker then [CallHijack] else []).
Proof.
  rewrite Hijack_unfold. destruct (implements _ _); simpl; [|apply effect_refl].
  split; simpl; rewrite ?invoke_writer; simpl; rewrite ?orb_false_r; done.
Qed.

Lemma effect_ReadFrom src d :
  effect d (state_of (ReadFrom src d))
    ((if wroteHeader d then [] else [CallWriteHeader http.StatusOK]) ++
     (if implements (ResponseWriter d) ReaderFrom then [CallReadFrom src] else []))%list.
Proof.
  rewrite ReadFrom_unfold.
  assert (Hi : implements
                 (ResponseWriter (if wroteHeader d then d else WriteHeader http.StatusOK d))
               = implements (ResponseWriter d)).
  { destruct (wroteHeader d); [done|]. apply (eff_implements _ _ _ (effect_WriteHeader _ d)). }
  cbv zeta. rewrite Hi.
  destruct (wroteHeader d) eqn:Hw, (implements (ResponseWriter d) ReaderFrom); simpl;
    split; simpl; rewrite ?invoke_answer, ?invoke_writer; simpl; rewrite ?invoke_writer; simpl;
    rewrite ?Hw, ?app_nil_r, <- ?app_assoc; done.
Qed.

Lemma effect_trans d1 d2 d3 a b :
  effect d1 d2 a -> effect d2 d3 b -> effect d1 d3 (a ++ b).
Proof.
  intros [Hr1 Hi1 Ha1 Hs1 Hw1 Hn1] [Hr2 Hi2 Ha2 Hs2 Hw2 Hn2]. split.
  - by rewrite Hr2, Hr1, app_assoc.
  - congruence.
  - congruence.
  - by rewrite Hs2, Hs1, last_status_app.
  - by rewrite Hw2, Hw1, existsb_app, orb_assoc.
  - by rewrite Hn2, Hn1, Ha1, Hr1, reported_app.
Qed.

Lemma step_effect d d' : step d d' -> exists calls, effect d d' calls.
Proof.
  destruct 1; eexists;
    eauto using effect_Header, effect_WriteHeader, effect_Write, effect_CloseNotify,
      effect_Flush, effect_Hijack, effect_ReadFrom.
Qed.

Lemma steps_effect d d' : steps d d' -> exists calls, effect d d' calls.
Proof.
  induction 1 as [d|d d1 d2 Hstep _ [b Hb]].
  - exists []. apply effect_refl.
  - destruct (step_effect _ _ Hstep) as [a Ha]. exists (a ++ b)%list.
    eapply effect_trans; eauto.
Qed.

Lemma steps_trans d1 d2 d3 : steps d1 d2 -> steps d2 d3 -> steps d1 d3.
Proof. induction 1; [done|]. intros. eapply steps_next; eauto. Qed.

Lemma effect_forwarded d d' calls :
  effect d d' calls -> forwarded (ResponseWriter d) (ResponseWriter d') = calls.
Proof. intros [Hr _ _ _ _ _]. by apply forwarded_app. Qed.

Lemma effect_extends d d' calls :
  effect d d' calls -> extends (ResponseWriter d) (ResponseWriter d').
Proof.
  intros H. pose proof (effect_forwarded _ _ _ H) as Hf.
  destruct H as [Hr Hi Ha _ _ _]. unfold extends. rewrite Hf. done.
Qed.

(** ** Running a handler *)

(** Whatever the handler does, the delegator it leaves is reached by calls
    of the decorator's methods. *)
Lemma run_steps rw h d : steps d (snd (run rw h d)).
Proof.
  revert d. induction h as [| |k IH|code k IH|b k IH|c k IH|k IH|k IH|k IH|src k IH|t k IH|s k IH];
    intros d; simpl; try apply steps_done.
  - eapply steps_next; [apply step_Header|apply IH].
  - eapply steps_next; [apply step_WriteHeader|apply IH].
  - pose proof (step_Write b d) as Hs.
    destruct (Write b d) as [[n err] d']. simpl in Hs.
    eapply steps_next; [exact Hs|apply IH].
  - apply IH.
  - unfold through. destruct (exposes rw CloseNotifier); [|apply steps_done].
    pose proof (step_CloseNotify d) as Hs.
    destruct (CloseNotify d) as [[] d'|c d']; simpl in Hs.
    + eapply steps_next; [exact Hs|apply IH].
    + eapply steps_next; [exact Hs|apply steps_done].
  - unfold through. destruct (exposes rw Flusher); [|apply steps_done].
    pose proof (step_Flush d) as Hs.
    destruct (Flush d) as [[] d'|c d']; simpl in Hs.
    + eapply steps_next; [exact Hs|apply IH].
    + eapply steps_next; [exact Hs|apply steps_done].
  - unfold through. destruct (exposes rw Hijacker); [|apply steps_done].
    pose proof (step_Hijack d) as Hs.
    destruct (Hijack d) as [err d'|c d']; simpl in Hs.
    + eapply steps_next; [exact Hs|apply IH].
    + eapply steps_next; [exact Hs|apply steps_done].
  - unfold through. destruct (exposes rw ReaderFrom); [|apply steps_done].
    pose proof (step_ReadFrom src d) as Hs.
    destruct (ReadFrom src d) as [[n err] d'|c d']; simpl in Hs.
    + eapply steps_next; [exact Hs|apply IH].
    + eapply steps_next; [exact Hs|apply steps_done].
Qed.

Lemma run_effect rw h d : exists calls, effect d (snd (run rw h d)) calls.
Proof. apply steps_effect, run_steps. Qed.

Lemma run_extends rw h d :
  extends (ResponseWriter d) (ResponseWriter (snd (run rw h d))).
Proof. destruct (run_effect rw h d) as [calls H]. eapply effect_extends; eauto. Qed.

(** The status the delegator holds is the code of the last [WriteHeader]
    forwarded to the writer. *)
Lemma run_status rw h d :
  status (snd (run rw h d)) =
  last_status (forwarded (ResponseWriter d) (ResponseWriter (snd (run rw h d)))) (status d).
Proof.
  destruct (run_effect rw h d) as [calls H].
  rewrite (effect_forwarded _ _ _ H). apply (eff_status _ _ _ H).
Qed.

(** ** One request *)

Lemma serve_unfold ToLower handlerFunc w r since m :
  serve ToLower handlerFunc w r since m =
  let x := run (select w) (handlerFunc r) (new_delegate w) in
  (fst x,
   gauge_Dec (Method r)
     match fst x with
     | Returned =>
         resSz_Observe (float64_of_int (written (snd x)))
           (reqDur_Observe (float64_quot (float64_of_int since) (float64_of_int time_Second))
              (counter_Inc (sanitizeMethod ToLower (Method r), sanitizeCode (status (snd x)))
                 (gauge_Inc (Method r) m)))
     | Panicked => gauge_Inc (Method r) m
     end,
   ResponseWriter (snd x)).
Proof.
  unfold serve. destruct (run (select w) (handlerFunc r) (new_delegate w)) as [[] d]; reflexivity.
Qed.

Lemma gauge_Inc_Dec_value l m0 m1 l' :
  inFlightReq m1 = inFlightReq (gauge_Inc l m0) ->
  gauge_value (inFlightReq (gauge_Dec l m1)) l' = gauge_value (inFlightReq m0) l'.
Proof.
  intros H. unfold gauge_Dec, gauge_value at 1. simpl. rewrite H. simpl.
  destruct (decide (l = l')) as [->|Hne].
  - rewrite lookup_insert_eq. simpl. unfold gauge_value at 1.
    rewrite lookup_insert_eq. simpl. lia.
  - rewrite !lookup_insert_ne by done. reflexivity.
Qed.

(** The status counted for a request that returns is the code of the last
    [WriteHeader] the writer received during it, 0 when it received none. *)
Lemma serve_reqCnt ToLower handlerFunc w r since m :
  let x := serve ToLower handlerFunc w r since m in
  reqCnt (metrics_of x) =
  match outcome_of x with
  | Returned =>
      let l := (sanitizeMethod ToLower (Method r),
                sanitizeCode (last_status (forwarded w (writer_of x)) 0)) in
      <[l := counter_value (reqCnt m) l + 1]> (reqCnt m)
  | Panicked => reqCnt m
  end.
Proof.
  cbv zeta. rewrite serve_unfold. cbv zeta. unfold outcome_of, metrics_of, writer_of. simpl.
  pose proof (run_status (select w) (handlerFunc r) (new_delegate w)) as Hs. simpl in Hs.
  destruct (fst (run (select w) (handlerFunc r) (new_delegate w))); simpl; [|done].
  by rewrite Hs.
Qed.

(** C1, as the code has it: every [WriteHeader] stores its code, so the
    status the delegator (and likewise [rwShared]) holds after two calls is
    the code of the second, and both codes are forwarded to the underlying
    writer in order; the code counted for a request that returns is that of
    the last [WriteHeader] the writer received. *)
Theorem C1_last_status_recorded :
  (forall c1 c2 d,
      let d' := WriteHeader c2 (WriteHeader c1 d) in
      status d' = c2 /\ wroteHeader d' = true /\
      forwarded (ResponseWriter d) (ResponseWriter d') = [CallWriteHeader c1; CallWriteHeader c2]) /\
  (forall c1 c2 r,
      let r' := Shared.WriteHeader c2 (Shared.WriteHeader c1 r) in
      Shared.status (Shared.stats_ r') = c2 /\ Shared.wroteHeader (Shared.stats_ r') = true /\
      forwarded (Shared.inner r) (Shared.inner r') = [CallWriteHeader c1; CallWriteHeader c2]) /\
  (forall ToLower handlerFunc w r since m,
      let x := serve ToLower handlerFunc w r since m in
      reqCnt (metrics_of x) =
      match outcome_of x with
      | Returned =>
          let l := (sanitizeMethod ToLower (Method r),
                    sanitizeCode (last_status (forwarded w (writer_of x)) 0)) in
          <[l := counter_value (reqCnt m) l + 1]> (reqCnt m)
      | Panicked => reqCnt m
      end).
Proof.
  split; [|split].
  - intros c1 c2 d d'. subst d'. repeat split.
    apply forwarded_app. simpl. rewrite !invoke_writer. simpl.
    by rewrite <- app_assoc.
  - intros c1 c2 r r'. subst r'. repeat split.
    apply forwarded_app. simpl. rewrite !invoke_writer. simpl.
    by rewrite <- app_assoc.
  - apply serve_reqCnt.
Qed.

(** C1 as stated fails: after [WriteHeader(200)] then [WriteHeader(404)] the
    recorded status is 404, not 200, for the delegator and for [rwShared],
    and the request is counted under code 404. *)
Lemma C1_first_status_overwritten :
  status (WriteHeader 404 (WriteHeader 200 (new_delegate bare_writer))) <> 200 /\
  status (WriteHeader 404 (WriteHeader 200 (new_delegate bare_writer))) = 404 /\
  Shared.status (Shared.stats_
    (Shared.WriteHeader 404 (Shared.WriteHeader 200 (new_rwShared bare_writer)))) = 404 /\
  let x := serve ToLowerASCII twice_handler bare_writer get_request 0 no_metrics in
  outcome_of x = Returned /\
  counter_value (reqCnt (metrics_of x)) ("get", "404") = 1 /\
  counter_value (reqCnt (metrics_of x)) ("get", "200") = 0.
Proof. repeat split; try discriminate; vm_compute; reflexivity. Qed.

(** C4: whether the handler returns or panics, every child of the in-flight
    gauge reads after the request what it read before it; and when the
    handler panics, the counter, the histogram and the summary are left as
    they were. *)
Theorem C4_gauge_released ToLower handlerFunc w r since m :
  let x := serve ToLower handlerFunc w r since m in
  (forall l, gauge_value (inFlightReq (metrics_of x)) l = gauge_value (inFlightReq m) l) /\
  (outcome_of x = Panicked ->
   reqCnt (metrics_of x) = reqCnt m /\
   reqDur (metrics_of x) = reqDur m /\
   resSz (metrics_of x) = resSz m).
Proof.
  cbv zeta. rewrite serve_unfold. cbv zeta. unfold outcome_of, metrics_of. simpl.
  split.
  - intros l. apply gauge_Inc_Dec_value.
    destruct (fst (run (select w) (handlerFunc r) (new_delegate w))); reflexivity.
  - intros ->. simpl. done.
Qed.

(** A handler that panics after a short write on a plain writer: the gauge
    is back to 0 and nothing else was recorded. *)
Lemma C4_gauge_released_witness :
  let x := serve ToLowerASCII panic_handler short_writer get_request 7 no_metrics in
  outcome_of x = Panicked /\
  (forall l, gauge_value (inFlightReq (metrics_of x)) l = gauge_value (inFlightReq no_metrics) l) /\
  reqCnt (metrics_of x) = reqCnt no_metrics /\
  reqDur (metrics_of x) = reqDur no_metrics /\
  resSz (metrics_of x) = resSz no_metrics.
Proof.
  cbv zeta.
  assert (Hp : outcome_of (serve ToLowerASCII panic_handler short_writer get_request 7 no_metrics)
               = Panicked) by reflexivity.
  split; [exact Hp|].
  split.
  - apply (C4_gauge_released ToLowerASCII panic_handler short_writer get_request 7 no_metrics).
  - apply (C4_gauge_released ToLowerASCII panic_handler short_writer get_request 7 no_metrics).
    exact Hp.
Defined.



(** ** The byte count *)

(** When every [Write] among the calls was answered with the full length
    and no error, and no [ReadFrom] is among them, the count grows by the
    bytes requested, as long as it fits an [int64]. *)
Lemma reported_full_writes ans calls : forall pre acc,
  (forall p b post, calls = (p ++ CallWrite b :: post)%list ->
                    ans (pre ++ p)%list (CallWrite b) = (Z.of_nat (length b), None)) ->
  forallb (fun c => negb (is_ReadFrom c)) calls = true ->
  0 <= acc -> acc + requested calls <= max_int64 ->
  reported ans pre calls acc = acc + requested calls.
Proof.
  induction calls as [|c calls IH]; intros pre acc Hfull Hnr Hacc Hmax; simpl.
  - lia.
  - simpl in Hnr. apply andb_true_iff in Hnr as [Hc Hnr].
    assert (Hfull' : forall p b post, calls = (p ++ CallWrite b :: post)%list ->
              ans ((pre ++ [c]) ++ p)%list (CallWrite b) = (Z.of_nat (length b), None)).
    { intros p b post ->. rewrite <- app_assoc. simpl.
      apply (Hfull (c :: p) b post). reflexivity. }
    pose proof (requested_nonneg calls) as Hreq.
    destruct c; try discriminate Hc; simpl in Hmax |- *;
      try (rewrite (IH _ _ Hfull' Hnr Hacc) by lia; lia).
    pose proof (Hfull [] b calls eq_refl) as Hb. rewrite app_nil_r in Hb.
    rewrite Hb. simpl.
    assert (Hlen : wrap64 (Z.of_nat (length b)) = Z.of_nat (length b)).
    { apply wrap64_id. unfold in_int64, min_int64, max_int64 in *. lia. }
    rewrite Hlen, add64_exact by (unfold in_int64, min_int64, max_int64 in *; lia).
    rewrite (IH _ _ Hfull' Hnr) by lia. lia.
Qed.

Lemma serve_resSz ToLower handlerFunc w r since m :
  let x := serve ToLower handlerFunc w r since m in
  resSz (metrics_of x) =
  match outcome_of x with
  | Returned =>
      (resSz m ++
       [float64_of_int (reported (answers w) (received w) (forwarded w (writer_of x)) 0)])%list
  | Panicked => resSz m
  end.
Proof.
  cbv zeta. rewrite serve_unfold. cbv zeta. unfold outcome_of, metrics_of, writer_of. simpl.
  destruct (run_effect (select w) (handlerFunc r) (new_delegate w)) as [calls H].
  pose proof (effect_forwarded _ _ _ H) as Hf. pose proof (eff_written _ _ _ H) as Hn.
  simpl in Hf, Hn.
  destruct (fst (run (select w) (handlerFunc r) (new_delegate w))); simpl; [|done].
  by rewrite Hf, Hn.
Qed.

(** The underlying writer receives the [Write] calls the handler makes,
    payload for payload, and a [ReadFrom] only if the handler makes one. *)
Lemma forwarded_step rw k d d1 a :
  effect d d1 a ->
  forwarded (ResponseWriter d) (ResponseWriter (snd (run rw k d1)))
  = (a ++ forwarded (ResponseWriter d1) (ResponseWriter (snd (run rw k d1))))%list.
Proof.
  intros Ha. destruct (run_effect rw k d1) as [b Hb].
  rewrite (effect_forwarded _ _ _ Hb).
  apply (effect_forwarded _ _ _ (effect_trans _ _ _ _ _ Ha Hb)).
Qed.

Lemma no_ReadFrom_app a b :
  forallb (fun c => negb (is_ReadFrom c)) (a ++ b)
  = forallb (fun c => negb (is_ReadFrom c)) a && forallb (fun c => negb (is_ReadFrom c)) b.
Proof. apply forallb_app. Qed.

Lemma step_then_run rw k d d1 a hd :
  effect d d1 a ->
  requested a = requested hd ->
  (forallb (fun c => negb (is_ReadFrom c)) hd = true ->
   forallb (fun c => negb (is_ReadFrom c)) a = true) ->
  (requested (forwarded (ResponseWriter d1) (ResponseWriter (snd (run rw k d1))))
   = requested (calls_made rw k d1) /\
   (forallb (fun c => negb (is_ReadFrom c)) (calls_made rw k d1) = true ->
    forallb (fun c => negb (is_ReadFrom c))
      (forwarded (ResponseWriter d1) (ResponseWriter (snd (run rw k d1)))) = true)) ->
  requested (forwarded (ResponseWriter d) (ResponseWriter (snd (run rw k d1))))
  = requested (hd ++ calls_made rw k d1) /\
  (forallb (fun c => negb (is_ReadFrom c)) (hd ++ calls_made rw k d1) = true ->
   forallb (fun c => negb (is_ReadFrom c))
     (forwarded (ResponseWriter d) (ResponseWriter (snd (run rw k d1)))) = true).
Proof.
  intros He Hreq Hno [IH1 IH2].
  rewrite (forwarded_step _ _ _ _ _ He), !requested_app, !no_ReadFrom_app, IH1, Hreq.
  split; [done|]. intros [H1 H2]%andb_true_iff. by rewrite (Hno H1), (IH2 H2).
Qed.

Lemma step_then_panic d d1 a hd :
  effect d d1 a ->
  requested a = requested hd ->
  (forallb (fun c => negb (is_ReadFrom c)) hd = true ->
   forallb (fun c => negb (is_ReadFrom c)) a = true) ->
  requested (forwarded (ResponseWriter d) (ResponseWriter d1)) = requested hd /\
  (forallb (fun c => negb (is_ReadFrom c)) hd = true ->
   forallb (fun c => negb (is_ReadFrom c))
     (forwarded (ResponseWriter d) (ResponseWriter d1)) = true).
Proof. intros He Hreq Hno. by rewrite (effect_forwarded _ _ _ He). Qed.

Lemma run_forwards_writes_made rw h : forall d,
  requested (forwarded (ResponseWriter d) (ResponseWriter (snd (run rw h d))))
  = requested (calls_made rw h d) /\
  (forallb (fun c => negb (is_ReadFrom c)) (calls_made rw h d) = true ->
   forallb (fun c => negb (is_ReadFrom c))
     (forwarded (ResponseWriter d) (ResponseWriter (snd (run rw h d)))) = true).
Proof.
  induction h as [| |k IH|code k IH|b k IH|c k IH|k IH|k IH|k IH|src k IH|t k IH|s k IH];
    intros d; cbn [run calls_made]; cbn [snd]; rewrite ?forwarded_refl; try done.
  - apply (step_then_run rw k d (Header d) [CallHeader] [CallHeader] (effect_Header d));
      auto.
  - apply (step_then_run rw k d (WriteHeader code d) [CallWriteHeader code]
             [CallWriteHeader code] (effect_WriteHeader code d)); auto.
  - pose proof (effect_Write b d) as He.
    destruct (Write b d) as [[n err] d']. cbn [snd] in He.
    apply (step_then_run rw (k n err) d d' _ [CallWrite b] He); [| |apply IH];
      by destruct (wroteHeader d).
  - unfold through. destruct (exposes rw CloseNotifier); cbn [snd];
      rewrite ?forwarded_refl; [|done].
    pose proof (effect_CloseNotify d) as He.
    destruct (CloseNotify d) as [[] d'|c d']; cbn [state_of snd] in He |- *.
    + apply (step_then_run rw k d d' _ [CallCloseNotify] He); [| |apply IH];
        by destruct (implements _ _).
    + apply (step_then_panic d d' _ [CallCloseNotify] He); by destruct (implements _ _).
  - unfold through. destruct (exposes rw Flusher); cbn [snd];
      rewrite ?forwarded_refl; [|done].
    pose proof (effect_Flush d) as He.
    destruct (Flush d) as [[] d'|c d']; cbn [state_of snd] in He |- *.
    + apply (step_then_run rw k d d' _ [CallFlush] He); [| |apply IH];
        by destruct (implements _ _).
    + apply (step_then_panic d d' _ [CallFlush] He); by destruct (implements _ _).
  - unfold through. destruct (exposes rw Hijacker); cbn [snd];
      rewrite ?forwarded_refl; [|done].
    pose proof (effect_Hijack d) as He.
    destruct (Hijack d) as [err d'|c d']; cbn [state_of snd] in He |- *.
    + apply (step_then_run rw (k err) d d' _ [CallHijack] He); [| |apply IH];
        by destruct (implements _ _).
    + apply (step_then_panic d d' _ [CallHijack] He); by destruct (implements _ _).
  - unfold through. destruct (exposes rw ReaderFrom); cbn [snd];
      rewrite ?forwarded_refl; [|done].
    pose proof (effect_ReadFrom src d) as He.
    destruct (ReadFrom src d) as [[n err] d'|c d']; cbn [state_of snd] in He |- *.
    + apply (step_then_run rw (k n err) d d' _ [CallReadFrom src] He); [| |apply IH];
        by destruct (wroteHeader d), (implements _ _).
    + apply (step_then_panic d d' _ [CallReadFrom src] He);
        by destruct (wroteHeader d), (implements _ _).
Qed.

(** C5: when the handler returns, the body it sent went through [Write]
    only, and every [Write] the underlying writer received was answered with
    the full length of its payload and no error, the summary observes W, the
    total length of the payloads of the [Write] calls the handler made (a
    total that fits the [int64] field it is accumulated in). *)
Theorem C5_summary_observes_total ToLower handlerFunc w r since m :
  let x := serve ToLower handlerFunc w r since m in
  let made := calls_made (select w) (handlerFunc r) (new_delegate w) in
  outcome_of x = Returned ->
  forallb (fun c => negb (is_ReadFrom c)) made = true ->
  (forall pre b post, forwarded w (writer_of x) = (pre ++ CallWrite b :: post)%list ->
                      answers w (received w ++ pre)%list (CallWrite b)
                      = (Z.of_nat (length b), None)) ->
  requested made <= max_int64 ->
  resSz (metrics_of x) = (resSz m ++ [float64_of_int (requested made)])%list /\
  requested (forwarded w (writer_of x)) = requested made.
Proof.
  cbv zeta. intros Hout Hnr Hfull Hmax.
  pose proof (serve_resSz ToLower handlerFunc w r since m) as Hsz. cbv zeta in Hsz.
  rewrite Hout in Hsz. rewrite Hsz.
  assert (Hw : writer_of (serve ToLower handlerFunc w r since m)
               = ResponseWriter (snd (run (select w) (handlerFunc r) (new_delegate w))))
    by (by rewrite serve_unfold).
  destruct (run_forwards_writes_made (select w) (handlerFunc r) (new_delegate w))
    as [Hreq Hnone].
  change (ResponseWriter (new_delegate w)) with w in Hreq, Hnone.
  rewrite <- Hw in Hreq, Hnone.
  rewrite (reported_full_writes _ _ _ 0 Hfull (Hnone Hnr)) by lia.
  by rewrite Hreq.
Qed.

(** Two writes of four bytes each, the first preceded by the implicit
    header: the handler asked for 8 bytes and the summary observes 8. *)
Lemma C5_summary_observes_total_witness :
  let x := serve ToLowerASCII two_writes_handler bare_writer get_request 7 no_metrics in
  calls_made (select bare_writer) (two_writes_handler get_request) (new_delegate bare_writer)
  = [CallWrite (bytes "abcd"); CallWrite (bytes "efgh")] /\
  forwarded bare_writer (writer_of x)
  = [CallWriteHeader 200; CallWrite (bytes "abcd"); CallWrite (bytes "efgh")] /\
  resSz (metrics_of x) = [float64_of_int 8].
Proof.
  cbv zeta. split; [reflexivity|]. split; [reflexivity|].
  apply (C5_summary_observes_total ToLowerASCII two_writes_handler bare_writer get_request 7
           no_metrics).
  - reflexivity.
  - reflexivity.
  - intros pre b post H. reflexivity.
  - vm_compute. discriminate.
Defined.

(** C7: [Write] returns the count and the error the underlying writer
    returned for the payload, whatever they are, and adds that count to
    [written] with [int64] addition (the plain sum when it fits). *)
Theorem C7_write_result_unchanged b d :
  let d1 := if wroteHeader d then d else WriteHeader http.StatusOK d in
  let under := invoke (CallWrite b) (ResponseWriter d1) in
  fst (Write b d) = fst under /\
  ResponseWriter (snd (Write b d)) = snd under /\
  written (snd (Write b d)) = add64 (written d) (fst (fst under)) /\
  (in_int64 (written d + fst (fst under)) ->
   written (snd (Write b d)) = written d + fst (fst under)).
Proof.
  cbv zeta. rewrite Write_unfold. cbv zeta. simpl.
  assert (Hw : written (if wroteHeader d then d else WriteHeader http.StatusOK d) = written d)
    by (destruct (wroteHeader d); reflexivity).
  rewrite Hw. repeat split. apply add64_exact.
Qed.

(** A short write with an error: two bytes of five are written; [Write]
    returns 2 and the error, and [written] is 2. *)
Lemma C7_write_result_unchanged_witness :
  let d := new_delegate short_writer in
  fst (Write (bytes "hello") d) = (2, Some (Err "short write")) /\
  written (snd (Write (bytes "hello") d)) = 2.
Proof.
  cbv zeta.
  destruct (C7_write_result_unchanged (bytes "hello") (new_delegate short_writer))
    as (Hres & _ & _ & Hsum).
  split.
  - rewrite Hres. reflexivity.
  - rewrite Hsum.
    + reflexivity.
    + vm_compute. split; discriminate.
Defined.

(** ** The implicit status *)

Lemma run_after_Write rw b k d :
  run rw (DoWrite b k) d =
  run rw (k (fst (fst (Write b d))) (snd (fst (Write b d)))) (snd (Write b d)).
Proof. simpl. by destruct (Write b d) as [[n err] d']. Qed.

(** C6, as the code has it. A [Write] on a delegator (or on an [rwShared])
    whose header is not written, and likewise a [ReadFrom] and a
    [WriteString], first runs [WriteHeader(200)]: the status is 200, the
    flag is set and the writer has received the header, not yet the body;
    the body is forwarded from that state. The status of the request is
    then 200 unless the handler calls [WriteHeader] afterwards, in which case
    it is the code of its last call. *)
Theorem C6_implicit_status_before_body :
  (forall d, wroteHeader d = false ->
     let d1 := WriteHeader http.StatusOK d in
     status d1 = 200 /\ wroteHeader d1 = true /\
     received (ResponseWriter d1)
     = (received (ResponseWriter d) ++ [CallWriteHeader 200])%list /\
     (forall b,
        Write b d = Write b d1 /\
        status (snd (Write b d)) = 200 /\ wroteHeader (snd (Write b d)) = true /\
        forwarded (ResponseWriter d) (ResponseWriter (snd (Write b d)))
        = [CallWriteHeader 200; CallWrite b]) /\
     (forall src,
        ReadFrom src d = ReadFrom src d1 /\
        status (state_of (ReadFrom src d)) = 200 /\
        wroteHeader (state_of (ReadFrom src d)) = true /\
        forwarded (ResponseWriter d) (ResponseWriter (state_of (ReadFrom src d)))
        = CallWriteHeader 200 ::
          (if implements (ResponseWriter d) ReaderFrom then [CallReadFrom src] else []))) /\
  (forall r, Shared.wroteHeader (Shared.stats_ r) = false ->
     let r1 := Shared.WriteHeader http.StatusOK r in
     Shared.status (Shared.stats_ r1) = 200 /\
     Shared.wroteHeader (Shared.stats_ r1) = true /\
     received (Shared.inner r1) = (received (Shared.inner r) ++ [CallWriteHeader 200])%list /\
     (forall b,
        Shared.Write b r = Shared.Write b r1 /\
        Shared.status (Shared.stats_ (snd (Shared.Write b r))) = 200 /\
        forwarded (Shared.inner r) (Shared.inner (snd (Shared.Write b r)))
        = [CallWriteHeader 200; CallWrite b]) /\
     (forall s,
        Shared.WriteString s r = Shared.WriteString s r1 /\
        Shared.status (Shared.stats_ (state_of (Shared.WriteString s r))) = 200 /\
        forwarded (Shared.inner r) (Shared.inner (state_of (Shared.WriteString s r)))
        = CallWriteHeader 200 ::
          (if implements (Shared.inner r) StringWriter then [CallWriteString s] else [])) /\
     (forall src,
        Shared.ReadFrom src r = Shared.ReadFrom src r1 /\
        Shared.status (Shared.stats_ (state_of (Shared.ReadFrom src r))) = 200 /\
        forwarded (Shared.inner r) (Shared.inner (state_of (Shared.ReadFrom src r)))
        = CallWriteHeader 200 ::
          (if implements (Shared.inner r) ReaderFrom then [CallReadFrom src] else []))) /\
  (forall rw b k d, wroteHeader d = false ->
     let d' := snd (Write b d) in
     let d'' := snd (run rw (DoWrite b k) d) in
     status d'' = last_status (forwarded (ResponseWriter d') (ResponseWriter d'')) 200).
Proof.
  split; [|split].
  - intros d Hw d1. subst d1. repeat split.
    + simpl. by rewrite invoke_writer.
    + unfold Write. by rewrite Hw.
    + pose proof (eff_status _ _ _ (effect_Write b d)) as H. by rewrite Hw in H.
    + pose proof (eff_wroteHeader _ _ _ (effect_Write b d)) as H. by rewrite Hw in H.
    + pose proof (effect_forwarded _ _ _ (effect_Write b d)) as H. by rewrite Hw in H.
    + unfold ReadFrom. by rewrite Hw.
    + pose proof (eff_status _ _ _ (effect_ReadFrom src d)) as H. rewrite Hw in H.
      rewrite H. by destruct (implements _ _).
    + pose proof (eff_wroteHeader _ _ _ (effect_ReadFrom src d)) as H. by rewrite Hw in H.
    + pose proof (effect_forwarded _ _ _ (effect_ReadFrom src d)) as H. by rewrite Hw in H.
  - intros r Hw r1. subst r1. repeat split.
    + simpl. by rewrite invoke_writer.
    + unfold Shared.Write. by rewrite Hw.
    + unfold Shared.Write. rewrite Hw. simpl.
      by destruct (invoke (CallWrite b) _) as [[n err] w'].
    + apply forwarded_app. unfold Shared.Write. rewrite Hw. simpl.
      destruct (invoke (CallWrite b) _) as [[n err] w'] eqn:E. simpl.
      apply (f_equal snd) in E. rewrite invoke_writer in E. simpl in E. subst w'. simpl.
      rewrite invoke_writer. simpl. by rewrite <- app_assoc.
    + unfold Shared.WriteString. by rewrite Hw.
    + unfold Shared.WriteString. rewrite Hw. simpl.
      destruct (implements _ _); [|done].
      by destruct (invoke (CallWriteString s) _) as [[n err] w'].
    + apply forwarded_app. unfold Shared.WriteString. rewrite Hw. simpl.
      rewrite invoke_writer. simpl.
      destruct (implements _ _); simpl; [|by rewrite ?invoke_writer].
      destruct (invoke (CallWriteString s) _) as [[n err] w'] eqn:E. simpl.
      apply (f_equal snd) in E. rewrite invoke_writer in E. simpl in E. subst w'. simpl.
      by rewrite <- app_assoc.
    + unfold Shared.ReadFrom. by rewrite Hw.
    + unfold Shared.ReadFrom. rewrite Hw. simpl.
      destruct (implements _ _); [|done].
      by destruct (invoke (CallReadFrom src) _) as [[n err] w'].
    + apply forwarded_app. unfold Shared.ReadFrom. rewrite Hw. simpl.
      rewrite invoke_writer. simpl.
      destruct (implements _ _); simpl; [|by rewrite ?invoke_writer].
      destruct (invoke (CallReadFrom src) _) as [[n err] w'] eqn:E. simpl.
      apply (f_equal snd) in E. rewrite invoke_writer in E. simpl in E. subst w'. simpl.
      by rewrite <- app_assoc.
  - intros rw b k d Hw d' d''. subst d' d''.
    rewrite run_after_Write, run_status. f_equal.
    pose proof (eff_status _ _ _ (effect_Write b d)) as H. by rewrite Hw in H.
Qed.

(** A first write without a header, on a plain writer. *)
Lemma C6_implicit_status_before_body_witness :
  let d := new_delegate bare_writer in
  let r := new_rwShared bare_writer in
  wroteHeader d = false /\
  status (snd (Write (bytes "abc") d)) = 200 /\
  forwarded (ResponseWriter d) (ResponseWriter (snd (Write (bytes "abc") d)))
  = [CallWriteHeader 200; CallWrite (bytes "abc")] /\
  Shared.status (Shared.stats_ (snd (Shared.Write (bytes "abc") r))) = 200 /\
  status (snd (run plain (done_handler get_request) d)) = 200.
Proof.
  cbv zeta.
  destruct C6_implicit_status_before_body as (HD & HS & HR).
  destruct (HD (new_delegate bare_writer) eq_refl) as (_ & _ & _ & HW & _).
  destruct (HW (bytes "abc")) as (_ & Hst & _ & Hfw).
  destruct (HS (new_rwShared bare_writer) eq_refl) as (_ & _ & _ & HSW & _).
  destruct (HSW (bytes "abc")) as (_ & HSst & _).
  pose proof (HR plain (bytes "done.") (fun _ _ => Return) (new_delegate bare_writer) eq_refl)
    as Hrun.
  repeat split; assumption.
Defined.

(** C6 as stated fails in its last part: a handler that writes the body
    first and calls [WriteHeader(404)] afterwards is counted under 404, not
    under the 200 recorded before its write. *)
Lemma C6_later_status_instrumented :
  let x := serve ToLowerASCII late_status_handler bare_writer get_request 0 no_metrics in
  outcome_of x = Returned /\
  forwarded bare_writer (writer_of x)
  = [CallWriteHeader 200; CallWrite (bytes "abc"); CallWriteHeader 404] /\
  status (snd (run (select bare_writer) (late_status_handler get_request)
                 (new_delegate bare_writer))) <> 200 /\
  counter_value (reqCnt (metrics_of x)) ("get", "404") = 1 /\
  counter_value (reqCnt (metrics_of x)) ("get", "200") = 0.
Proof. repeat split; try discriminate; vm_compute; reflexivity. Qed.

(** ** The optional capabilities *)

Lemma select_all_four w : select w = if all_four w then fancy else plain.
Proof. reflexivity. Qed.

Lemma exposes_select w c :
  exposes (select w) c = true ->
  all_four w = true /\ c ∈ [CloseNotifier; Flusher; Hijacker; ReaderFrom].
Proof.
  rewrite select_all_four. destruct (all_four w); [|discriminate].
  destruct c; simpl; try discriminate; intros _; split; try done; set_solver.
Qed.

Lemma all_four_implements w c :
  all_four w = true -> c ∈ [CloseNotifier; Flusher; Hijacker; ReaderFrom] ->
  implements w c = true.
Proof.
  unfold all_four. intros H Hc.
  apply andb_true_iff in H as [H Hrf]. apply andb_true_iff in H as [H Hhj].
  apply andb_true_iff in H as [Hcn Hfl].
  set_unfold. destruct Hc as [->|[->|[->|[->|[]]]]]; assumption.
Qed.

(** A method of the fancy decorator on a writer that implements the
    interface: it returns, and the last call the writer received is the one
    asked for. *)
Lemma fancy_method_forwards c payload m d :
  fancy_method c payload = Some m ->
  implements (ResponseWriter d) c = true ->
  m d = Value tt (state_of (m d)) /\
  last (forwarded (ResponseWriter d) (ResponseWriter (state_of (m d))))
  = Some (call_for c payload "").
Proof.
  intros Hm Hi. destruct c; simpl in Hm; try discriminate;
    injection Hm as <-.
  - pose proof (effect_forwarded _ _ _ (effect_CloseNotify d)) as Hf.
    rewrite Hi in Hf. rewrite Hf. unfold CloseNotify. rewrite Hi. done.
  - pose proof (effect_forwarded _ _ _ (effect_Flush d)) as Hf.
    rewrite Hi in Hf. rewrite Hf. unfold Flush. rewrite Hi. done.
  - pose proof (effect_forwarded _ _ _ (effect_Hijack d)) as Hf.
    rewrite Hi in Hf. revert Hf. rewrite Hijack_unfold, Hi. simpl. by intros ->.
  - pose proof (effect_forwarded _ _ _ (effect_ReadFrom payload d)) as Hf.
    rewrite Hi in Hf. revert Hf. rewrite ReadFrom_unfold. cbv zeta.
    assert (Hi' : implements
                    (ResponseWriter (if wroteHeader d then d else WriteHeader http.StatusOK d))
                    ReaderFrom = true).
    { destruct (wroteHeader d); [done|].
      by rewrite (eff_implements _ _ _ (effect_WriteHeader _ d)). }
    rewrite Hi'. simpl. intros ->. by rewrite last_snoc.
Qed.

Lemma fancy_method_exists c payload :
  c ∈ [CloseNotifier; Flusher; Hijacker; ReaderFrom] ->
  exists m, fancy_method c payload = Some m.
Proof. set_unfold. intros [->|[->|[->|[->|[]]]]]; simpl; eauto. Qed.

(** What the gate of the closure keeps: close notification, flush, hijack
    and [ReadFrom] exactly when the underlying writer implements all four of
    them; the handler can then call each through the decorator, the call
    returns and it is forwarded to the writer. *)
Lemma gate_all_or_none w :
  select w = (if all_four w then fancy else plain) /\
  (forall c, c ∈ [CloseNotifier; Flusher; Hijacker; ReaderFrom] ->
             exposes (select w) c = all_four w) /\
  (forall c payload d,
      c ∈ [CloseNotifier; Flusher; Hijacker; ReaderFrom] ->
      all_four w = true ->
      implements (ResponseWriter d) = implements w ->
      exists m d',
        fancy_method c payload = Some m /\
        through (select w) c m d = Value tt d' /\
        last (forwarded (ResponseWriter d) (ResponseWriter d'))
        = Some (call_for c payload "")).
Proof.
  split; [apply select_all_four|split].
  - intros c Hc. rewrite select_all_four. destruct (all_four w); [|done].
    set_unfold. destruct Hc as [->|[->|[->|[->|[]]]]]; reflexivity.
  - intros c payload d Hc Hall Hd.
    assert (Hi : implements (ResponseWriter d) c = true)
      by (rewrite Hd; by apply all_four_implements).
    assert (Hex : exposes (select w) c = true).
    { rewrite select_all_four, Hall. set_unfold.
      destruct Hc as [->|[->|[->|[->|[]]]]]; reflexivity. }
    destruct (fancy_method_exists c payload Hc) as [m Hm]. exists m, (state_of (m d)).
    destruct (fancy_method_forwards c payload m d Hm Hi) as [Hv Hl].
    split; [done|]. split; [|done].
    unfold through. by rewrite Hex.
Qed.

(** On an HTTP/1 writer the handler can flush through the decorator. *)
Lemma gate_all_or_none_h1 :
  all_four h1_writer = true /\
  exists m d',
    fancy_method Flusher [] = Some m /\
    through (select h1_writer) Flusher m (new_delegate h1_writer) = Value tt d' /\
    last (forwarded h1_writer (ResponseWriter d')) = Some CallFlush.
Proof.
  split; [reflexivity|].
  destruct (gate_all_or_none h1_writer) as (_ & _ & H).
  apply (H Flusher [] (new_delegate h1_writer)).
  - set_solver.
  - reflexivity.
  - reflexivity.
Defined.

(** C2 on the code: the decorator exposes a capability only when it is one
    of close notification, flush, hijack and [ReadFrom] and the underlying
    writer implements all four; push and string-write are never exposed. So
    a writer that implements [http.Flusher] alone gets the plain delegator,
    which has no [Flush]: a handler that flushes through it panics on its
    own assertion and the writer receives nothing; and an HTTP/2 writer
    keeps none of the four capabilities it implements. *)
Theorem C2_capabilities_dropped :
  (forall w c,
      exposes (select w) c
      = all_four w && bool_decide (c ∈ [CloseNotifier; Flusher; Hijacker; ReaderFrom])) /\
  (forall w, exposes (select w) Pusher = false /\ exposes (select w) StringWriter = false) /\
  (implements flush_writer Flusher = true /\
   select flush_writer = plain /\
   exposes (select flush_writer) Flusher = false /\
   let x := serve ToLowerASCII flush_handler flush_writer get_request 0 no_metrics in
   outcome_of x = Panicked /\ received (writer_of x) = []) /\
  forallb (fun c => implements h2_writer c && negb (exposes (select h2_writer) c))
    [CloseNotifier; Flusher; Pusher; StringWriter] = true.
Proof.
  split; [|split; [|split]].
  - intros w c. rewrite select_all_four. destruct (all_four w), c; reflexivity.
  - intros w. rewrite select_all_four. by destruct (all_four w).
  - repeat split; vm_compute; reflexivity.
  - vm_compute. reflexivity.
Qed.

(** ** The selected decorator never panics on a capability *)

Lemma exposes_implements w c : exposes (select w) c = true -> implements w c = true.
Proof. intros [Hall Hc]%exposes_select. by apply all_four_implements. Qed.

(** No method of the decorator selected for [w] panics, whatever the
    handler does with a delegator on [w]. *)
Lemma method_panics_selected w h : forall d,
  implements (ResponseWriter d) = implements w ->
  method_panics (select w) h d = false.
Proof.
  induction h as [| |k IH|code k IH|b k IH|c k IH|k IH|k IH|k IH|src k IH|t k IH|s k IH];
    intros d Hd; cbn [method_panics]; try reflexivity.
  - apply IH. by rewrite (eff_implements _ _ _ (effect_Header d)).
  - apply IH. by rewrite (eff_implements _ _ _ (effect_WriteHeader code d)).
  - pose proof (eff_implements _ _ _ (effect_Write b d)) as Hi.
    destruct (Write b d) as [[n err] d']. apply IH. cbn [snd] in Hi. by rewrite Hi.
  - by apply IH.
  - destruct (exposes (select w) CloseNotifier) eqn:Hex; [|done].
    pose proof (eff_implements _ _ _ (effect_CloseNotify d)) as Hi.
    unfold CloseNotify in *. rewrite Hd, (exposes_implements _ _ Hex) in *.
    apply IH. cbn [state_of] in Hi. by rewrite Hi.
  - destruct (exposes (select w) Flusher) eqn:Hex; [|done].
    pose proof (eff_implements _ _ _ (effect_Flush d)) as Hi.
    unfold Flush in *. rewrite Hd, (exposes_implements _ _ Hex) in *.
    apply IH. cbn [state_of] in Hi. by rewrite Hi.
  - destruct (exposes (select w) Hijacker) eqn:Hex; [|done].
    pose proof (eff_implements _ _ _ (effect_Hijack d)) as Hi.
    rewrite Hijack_unfold in *. rewrite Hd, (exposes_implements _ _ Hex) in *.
    cbv zeta in *. apply IH. cbn [state_of] in Hi. by rewrite Hi.
  - destruct (exposes (select w) ReaderFrom) eqn:Hex; [|done].
    pose proof (eff_implements _ _ _ (effect_ReadFrom src d)) as Hi.
    rewrite ReadFrom_unfold in *. cbv zeta in *.
    assert (Hi' : implements
                    (ResponseWriter (if wroteHeader d then d else WriteHeader http.StatusOK d))
                    ReaderFrom = true).
    { destruct (wroteHeader d).
      - by rewrite Hd, (exposes_implements _ _ Hex).
      - by rewrite (eff_implements _ _ _ (effect_WriteHeader _ d)), Hd,
             (exposes_implements _ _ Hex). }
    rewrite Hi' in *. cbn [state_of] in Hi.
    destruct (invoke (CallReadFrom src) _) as [[n err] w'] eqn:E. cbn [fst snd] in *.
    apply IH. by rewrite Hi.
Qed.

(** C3: the decorator the middleware selects exposes an optional operation
    only when the underlying writer implements it; a call of an exposed
    operation does not panic; an operation that is not exposed is out of the
    handler's reach, its assertion on the decorator failing before any
    method runs; and so, whatever the handler does during a request, no
    method of the decorator panics on a capability the writer lacks. *)
Theorem C3_selected_decorator_is_safe :
  (forall w c, exposes (select w) c = true -> implements w c = true) /\
  (forall w c payload d,
      exposes (select w) c = true ->
      implements (ResponseWriter d) = implements w ->
      exists m, fancy_method c payload = Some m /\
                panicked (through (select w) c m d) = false) /\
  (forall w c A (m : responseWriterDelegator -> result responseWriterDelegator A) d,
      exposes (select w) c = false ->
      through (select w) c m d = AssertPanic c d) /\
  (forall w h, method_panics (select w) h (new_delegate w) = false).
Proof.
  split; [|split; [|split]].
  - apply exposes_implements.
  - intros w c payload d Hex Hd.
    destruct (exposes_select _ _ Hex) as [Hall Hc].
    destruct (fancy_method_exists c payload Hc) as [m Hm]. exists m. split; [done|].
    assert (Hi : implements (ResponseWriter d) c = true)
      by (rewrite Hd; by apply all_four_implements).
    destruct (fancy_method_forwards c payload m d Hm Hi) as [Hv _].
    unfold through. rewrite Hex, Hv. reflexivity.
  - intros w c A m d Hex. unfold through. by rewrite Hex.
  - intros w h. by apply method_panics_selected.
Qed.

(** The hijack of an HTTP/1 writer through the selected decorator, and a
    push that the decorator selected for an HTTP/2 writer does not expose. *)
Lemma C3_selected_decorator_is_safe_witness :
  exposes (select h1_writer) Hijacker = true /\
  implements h1_writer Hijacker = true /\
  (exists m, fancy_method Hijacker [] = Some m /\
             panicked (through (select h1_writer) Hijacker m (new_delegate h1_writer)) = false) /\
  exposes (select h2_writer) Pusher = false /\
  through (select h2_writer) Pusher Flush (new_delegate h2_writer)
  = AssertPanic Pusher (new_delegate h2_writer).
Proof.
  destruct C3_selected_decorator_is_safe as (H1 & H2 & H3 & _).
  split; [reflexivity|].
  split; [apply (H1 h1_writer Hijacker); reflexivity|].
  split; [apply (H2 h1_writer Hijacker [] (new_delegate h1_writer)); reflexivity|].
  split; [reflexivity|].
  apply (H3 h2_writer Pusher); reflexivity.
Defined.

(** The selection matters: the fancy decorator put by hand on a writer
    without [http.Flusher] does panic in its [Flush]. *)
Example method_panics_without_gate :
  method_panics fancy (DoFlush Return) (new_delegate bare_writer) = true /\
  method_panics (select bare_writer) (DoFlush Return) (new_delegate bare_writer) = false.
Proof. split; reflexivity. Qed.

(** ** Construction *)

(** C8, on the code: of the four collectors built for a handler name, the
    counter and the summary carry it as the constant label [handler]; the
    gauge and the histogram are built without constant labels. These are the
    handles the closure captures when the registry holds nothing yet. *)
Theorem C8_handler_label_on_two_of_four handlerName :
  let o := InstrumentHandlerFunc_opts handlerName in
  ConstLabels (opts (new_reqCnt o)) !! "handler" = Some handlerName /\
  ConstLabels (opts (new_resSz o)) !! "handler" = Some handlerName /\
  ConstLabels (opts (new_inFlightReq o)) = ∅ /\
  ConstLabels (opts (new_reqDur o)) = ∅ /\
  fst (InstrumentHandlerFunc (list Collector) list_Register same_kind handlerName [])
  = inl {| h_inFlightReq := new_inFlightReq o; h_reqCnt := new_reqCnt o;
           h_reqDur := new_reqDur o; h_resSz := new_resSz o |}.
Proof.
  cbv zeta. repeat split; try apply lookup_singleton_eq.
Qed.

(** C9: with the answers [Register] gives to the four registrations in
    turn, construction succeeds exactly when each answer is recoverable (no
    error, or a compatible collector registered already), and the handles
    are then the new collector or the existing one; otherwise the call
    panics, so that no closure is returned to serve requests. *)
Theorem C9_registration_idempotent_or_fatal
    (Registry : Type) (Register : Collector -> Registry -> option RegisterError * Registry)
    (asserts_to : CollectorKind -> Collector -> bool) (o : Opts) (reg : Registry) :
  let a1 := Register (new_inFlightReq o) reg in
  let a2 := Register (new_reqCnt o) (snd a1) in
  let a3 := Register (new_reqDur o) (snd a2) in
  let a4 := Register (new_resSz o) (snd a3) in
  let result := InstrumentHandlerFuncWithOpts Registry Register asserts_to o reg in
  if recoverable asserts_to (new_inFlightReq o) (fst a1)
     && recoverable asserts_to (new_reqCnt o) (fst a2)
     && recoverable asserts_to (new_reqDur o) (fst a3)
     && recoverable asserts_to (new_resSz o) (fst a4)
  then result =
       (inl {| h_inFlightReq := kept_handle (new_inFlightReq o) (fst a1);
               h_reqCnt := kept_handle (new_reqCnt o) (fst a2);
               h_reqDur := kept_handle (new_reqDur o) (fst a3);
               h_resSz := kept_handle (new_resSz o) (fst a4) |}, snd a4)
  else exists p, fst result = inr p.
Proof.
  cbv zeta. unfold InstrumentHandlerFuncWithOpts, register_or_reuse.
  destruct (Register (new_inFlightReq o) reg) as [[[ex1 n1|e1]|] r1]; simpl;
    [destruct (asserts_to GaugeVec ex1); simpl; [|eauto]|eauto|];
    (destruct (Register (new_reqCnt o) r1) as [[[ex2 n2|e2]|] r2]; simpl;
     [destruct (asserts_to CounterVec ex2); simpl; [|eauto]|eauto|]);
    (destruct (Register (new_reqDur o) r2) as [[[ex3 n3|e3]|] r3]; simpl;
     [destruct (asserts_to Histogram ex3); simpl; [|eauto]|eauto|]);
    (destruct (Register (new_resSz o) r3) as [[[ex4 n4|e4]|] r4]; simpl;
     [destruct (asserts_to Summary ex4); simpl; [|eauto]|eauto|]);
    reflexivity.
Qed.

(** Wrapping two handlers under one name: the second construction finds the
    four collectors registered and keeps them; the registry is unchanged. *)
Example construct_twice :
  let first := InstrumentHandlerFunc (list Collector) list_Register same_kind "api" [] in
  let second := InstrumentHandlerFunc (list Collector) list_Register same_kind "api" (snd first) in
  length (snd first) = 4%nat /\ second = first.
Proof. vm_compute. split; reflexivity. Qed.

(** A summary registered under the identity of the request counter: the
    construction panics on the conversion to [*prometheus.CounterVec]. *)
Example construct_conflict :
  let o := InstrumentHandlerFunc_opts "api" in
  let other :=
    {| kind := Summary; opts := opts (new_reqCnt o);
       labelNames := []; Buckets := []; Objectives := [] |} in
  fst (InstrumentHandlerFunc (list Collector) list_Register same_kind "api" [other])
  = inr (PanicConversion CounterVec other).
Proof. vm_compute. reflexivity. Qed.

(** Two handlers under different names share the gauge and the histogram,
    which carry no handler label, and get a counter and a summary each. *)
Example construct_two_names :
  let first := InstrumentHandlerFunc (list Collector) list_Register same_kind "a" [] in
  let second := InstrumentHandlerFunc (list Collector) list_Register same_kind "b" (snd first) in
  length (snd second) = 6%nat /\
  match fst first, fst second with
  | inl h1, inl h2 =>
      h_inFlightReq h1 = h_inFlightReq h2 /\ h_reqDur h1 = h_reqDur h2 /\
      h_reqCnt h1 <> h_reqCnt h2 /\ h_resSz h1 <> h_resSz h2
  | _, _ => False
  end.
Proof. vm_compute. repeat split; discriminate. Qed.

(** The requests of the demonstration server. *)
Example serve_default_answer :
  let x := serve ToLowerASCII done_handler h1_writer get_request 1500000000 no_metrics in
  outcome_of x = Returned /\
  reqCnt (metrics_of x) = {[ ("get", "200") := 1 ]} /\
  resSz (metrics_of x) = [float64_of_int 5] /\
  reqDur (metrics_of x) = [float64_quot (float64_of_int 1500000000) (float64_of_int 1000000000)] /\
  gauge_value (inFlightReq (metrics_of x)) "GET" = 0.
Proof. repeat split. Qed.

Example serve_not_found :
  let x := serve ToLowerASCII not_found_handler bare_writer get_request 0 no_metrics in
  reqCnt (metrics_of x) = {[ ("get", "404") := 1 ]} /\
  resSz (metrics_of x) = [float64_of_int 3].
Proof. repeat split. Qed.

(* ===================================================================== *)
(** * Further properties of the code *)
(* ===================================================================== *)

(** ** Labels *)

Lemma Itoa_parse z : parse_decimal (Itoa z) = Some z.
Proof.
  unfold parse_decimal, Itoa. rewrite NilZero.isi.
  - simpl. f_equal. apply DecimalZ.of_to.
  - destruct z; simpl; try discriminate.
    intros [= H]. by apply DecimalPos.Unsigned.to_uint_nonnil in H.
  - destruct z; simpl; try discriminate.
    intros [= H]. by apply DecimalPos.Unsigned.to_uint_nonnil in H.
Qed.

(** The code label of any status, listed in the switch or not, is its
    decimal form: it reads back to the status, so two statuses never share a
    label. *)
Theorem sanitizeCode_reads_back :
  (forall s, sanitizeCode s = Itoa s /\ parse_decimal (sanitizeCode s) = Some s) /\
  (forall s1 s2, sanitizeCode s1 = sanitizeCode s2 -> s1 = s2).
Proof.
  split.
  - intros s. rewrite sanitizeCode_Itoa. split; [done|apply Itoa_parse].
  - intros s1 s2 H. rewrite !sanitizeCode_Itoa in H.
    apply (f_equal parse_decimal) in H. rewrite !Itoa_parse in H. by injection H.
Qed.

Lemma sanitizeCode_reads_back_witness :
  parse_decimal (sanitizeCode 418) = Some 418 /\ parse_decimal (sanitizeCode (-3)) = Some (-3) /\
  (sanitizeCode 404 = sanitizeCode (400 + 4) -> 404 = 400 + 4).
Proof.
  destruct sanitizeCode_reads_back as [H1 H2].
  split; [apply H1|]. split; [apply H1|]. apply H2.
Defined.

(** The switch of [sanitizeMethod] is a shortcut: for a lower-casing
    function that treats the eight methods as expected, the label is the
    lower-cased method, whatever the method; and sanitising twice changes
    nothing when lower-casing twice does not. *)
Theorem sanitizeMethod_is_ToLower ToLower :
  (forall upper lower,
      (upper, lower) ∈ [("GET", "get"); ("PUT", "put"); ("HEAD", "head"); ("POST", "post");
                        ("DELETE", "delete"); ("CONNECT", "connect");
                        ("OPTIONS", "options"); ("NOTIFY", "notify")] ->
      ToLower upper = lower /\ ToLower lower = lower) ->
  (forall m, sanitizeMethod ToLower m = ToLower m) /\
  ((forall m, ToLower (ToLower m) = ToLower m) ->
   forall m, sanitizeMethod ToLower (sanitizeMethod ToLower m) = sanitizeMethod ToLower m).
Proof.
  intros Hlow.
  assert (Heq : forall m, sanitizeMethod ToLower m = ToLower m).
  { pose proof (Hlow "GET" "get" ltac:(apply list_elem_of_In; simpl; tauto)) as [? ?].
    pose proof (Hlow "PUT" "put" ltac:(apply list_elem_of_In; simpl; tauto)) as [? ?].
    pose proof (Hlow "HEAD" "head" ltac:(apply list_elem_of_In; simpl; tauto)) as [? ?].
    pose proof (Hlow "POST" "post" ltac:(apply list_elem_of_In; simpl; tauto)) as [? ?].
    pose proof (Hlow "DELETE" "delete" ltac:(apply list_elem_of_In; simpl; tauto)) as [? ?].
    pose proof (Hlow "CONNECT" "connect" ltac:(apply list_elem_of_In; simpl; tauto)) as [? ?].
    pose proof (Hlow "OPTIONS" "options" ltac:(apply list_elem_of_In; simpl; tauto)) as [? ?].
    pose proof (Hlow "NOTIFY" "notify" ltac:(apply list_elem_of_In; simpl; tauto)) as [? ?].
    intros m. unfold sanitizeMethod.
    repeat match goal with
    | |- context [String.eqb m ?a] =>
        destruct (String.eqb_spec m a) as [->|_]; simpl; [by symmetry|]
    end.
    reflexivity. }
  split; [exact Heq|]. intros Hidem m. by rewrite !Heq.
Qed.

Lemma lower_ascii_idem c : lower_ascii (lower_ascii c) = lower_ascii c.
Proof.
  destruct c as [[] [] [] [] [] [] [] []]; reflexivity.
Qed.

Lemma ToLowerASCII_idem s : ToLowerASCII (ToLowerASCII s) = ToLowerASCII s.
Proof. induction s as [|c s IH]; simpl; [done|]. by rewrite lower_ascii_idem, IH. Qed.

Lemma sanitizeMethod_is_ToLower_witness :
  (forall m, sanitizeMethod ToLowerASCII m = ToLowerASCII m) /\
  (forall m, sanitizeMethod ToLowerASCII (sanitizeMethod ToLowerASCII m)
             = sanitizeMethod ToLowerASCII m).
Proof.
  assert (H : forall upper lower,
      (upper, lower) ∈ [("GET", "get"); ("PUT", "put"); ("HEAD", "head"); ("POST", "post");
                        ("DELETE", "delete"); ("CONNECT", "connect");
                        ("OPTIONS", "options"); ("NOTIFY", "notify")] ->
      ToLowerASCII upper = lower /\ ToLowerASCII lower = lower).
  { intros upper lower Hin. set_unfold.
    repeat (destruct Hin as [[= -> ->]|Hin]; [split; reflexivity|]). destruct Hin. }
  destruct (sanitizeMethod_is_ToLower ToLowerASCII H) as [H1 H2].
  split; [exact H1|]. apply H2, ToLowerASCII_idem.
Defined.

(** ** What a handler can make of the delegator *)

Lemma headers_first_app s a b :
  headers_first s (a ++ b) =
  headers_first s a && headers_first (s || existsb is_WriteHeader a) b.
Proof.
  revert s. induction a as [|c a IH]; intros s; simpl.
  - by rewrite orb_false_r.
  - destruct c; simpl; rewrite ?IH, ?orb_true_r, ?andb_assoc; reflexivity.
Qed.

Lemma step_effect_headers d d' :
  step d d' -> exists calls, effect d d' calls /\ headers_first (wroteHeader d) calls = true.
Proof.
  destruct 1.
  - eexists. split; [apply effect_Header|done].
  - eexists. split; [apply effect_WriteHeader|done].
  - eexists. split; [apply effect_Write|]. by destruct (wroteHeader d) eqn:Hw; simpl; rewrite ?Hw.
  - eexists. split; [apply effect_CloseNotify|]. by destruct (implements _ _).
  - eexists. split; [apply effect_Flush|]. by destruct (implements _ _).
  - eexists. split; [apply effect_Hijack|]. by destruct (implements _ _).
  - eexists. split; [apply effect_ReadFrom|].
    by destruct (wroteHeader d) eqn:Hw, (implements _ _); simpl; rewrite ?Hw.
Qed.

Lemma steps_effect_headers d d' :
  steps d d' -> exists calls, effect d d' calls /\ headers_first (wroteHeader d) calls = true.
Proof.
  induction 1 as [d|d d1 d2 Hstep _ (b & Hb & Hhb)].
  - exists []. split; [apply effect_refl|done].
  - destruct (step_effect_headers _ _ Hstep) as (a & Ha & Hha). exists (a ++ b)%list.
    split; [eapply effect_trans; eauto|].
    rewrite headers_first_app, Hha. simpl.
    by rewrite <- (eff_wroteHeader _ _ _ Ha).
Qed.




(** The header flag after a handler has run is exact: it is set if and only
    if it was set before or the underlying writer received a [WriteHeader]
    since; in particular it is never reset. *)
Theorem run_wroteHeader_exact rw h d :
  let d' := snd (run rw h d) in
  wroteHeader d' =
  wroteHeader d || existsb is_WriteHeader (forwarded (ResponseWriter d) (ResponseWriter d')).
Proof.
  cbv zeta. destruct (run_effect rw h d) as [calls H].
  rewrite (effect_forwarded _ _ _ H). apply (eff_wroteHeader _ _ _ H).
Qed.

(** Whatever the handler does, the underlying writer never receives a
    [Write] or a [ReadFrom] before it has received a [WriteHeader]: the
    decorator sends the implicit header first. For a whole request the
    delegator starts with the flag unset. *)
Theorem run_headers_first :
  (forall rw h d,
      headers_first (wroteHeader d)
        (forwarded (ResponseWriter d) (ResponseWriter (snd (run rw h d)))) = true) /\
  (forall ToLower handlerFunc w r since m,
      headers_first false
        (forwarded w (writer_of (serve ToLower handlerFunc w r since m))) = true).
Proof.
  assert (H : forall rw h d,
      headers_first (wroteHeader d)
        (forwarded (ResponseWriter d) (ResponseWriter (snd (run rw h d)))) = true).
  { intros rw h d.
    destruct (steps_effect_headers _ _ (run_steps rw h d)) as (calls & He & Hh).
    by rewrite (effect_forwarded _ _ _ He). }
  split; [exact H|].
  intros ToLower handlerFunc w r since m. rewrite serve_unfold. unfold writer_of. simpl.
  apply (H (select w) (handlerFunc r) (new_delegate w)).
Qed.



(** ** The byte count under short writes *)

Lemma offered_nonneg calls : 0 <= offered calls.
Proof. induction calls as [|c calls IH]; simpl; [lia|]. destruct c; simpl; lia. Qed.

Lemma add64_count acc n bound :
  0 <= acc -> 0 <= n <= bound -> acc + bound <= max_int64 ->
  add64 acc (wrap64 n) = acc + n.
Proof.
  intros Hacc Hn Hfit.
  rewrite wrap64_id by (unfold in_int64, min_int64, max_int64 in *; lia).
  apply add64_exact. unfold in_int64, min_int64, max_int64 in *. lia.
Qed.

Lemma reported_bounds ans calls : forall pre acc,
  honours_contract ans ->
  0 <= acc -> acc + offered calls <= max_int64 ->
  acc <= reported ans pre calls acc <= acc + offered calls.
Proof.
  induction calls as [|c calls IH]; intros pre acc Hans Hacc Hmax; [simpl; lia|].
  pose proof (offered_nonneg calls) as Hoff.
  pose proof (Hans pre c) as Hc.
  assert (Hbody : is_body c = true ->
            acc <= reported ans pre (c :: calls) acc <= acc + offered (c :: calls)).
  { intros Hb.
    assert (Hmax' : acc + (payload_size c + offered calls) <= max_int64)
      by (destruct c; try discriminate Hb; exact Hmax).
    assert (Hr : reported ans pre (c :: calls) acc
                 = reported ans (pre ++ [c]) calls (acc + fst (ans pre c))).
    { destruct c; try discriminate Hb; cbn [reported];
        by rewrite (add64_count acc _ _ Hacc Hc) by lia. }
    assert (Ho : offered (c :: calls) = payload_size c + offered calls)
      by (destruct c; try discriminate Hb; reflexivity).
    rewrite Hr, Ho.
    specialize (IH (pre ++ [c])%list (acc + fst (ans pre c)) Hans). lia. }
  destruct c; try (apply Hbody; reflexivity);
    cbn [reported offered] in Hmax |- *; by apply IH.
Qed.

(** The byte count is the [int64] sum of the counts the underlying writer
    returned for the [Write] and [ReadFrom] calls it received, short or
    failed writes included, both on the delegator a handler leaves and in
    what the summary observes for a request that returns. *)
Theorem written_is_reported :
  (forall rw h d,
      let d' := snd (run rw h d) in
      written d' =
      reported (answers (ResponseWriter d)) (received (ResponseWriter d))
        (forwarded (ResponseWriter d) (ResponseWriter d')) (written d)) /\
  (forall ToLower handlerFunc w r since m,
      let x := serve ToLower handlerFunc w r since m in
      resSz (metrics_of x) =
      match outcome_of x with
      | Returned =>
          (resSz m ++
           [float64_of_int (reported (answers w) (received w) (forwarded w (writer_of x)) 0)])%list
      | Panicked => resSz m
      end).
Proof.
  split.
  - intros rw h d. cbv zeta. destruct (run_effect rw h d) as [calls H].
    rewrite (effect_forwarded _ _ _ H). apply (eff_written _ _ _ H).
  - apply serve_resSz.
Qed.

(** On a writer that returns counts between 0 and the bytes offered, the
    size observed for a request that returns lies between 0 and the bytes
    the [Write] and [ReadFrom] calls offered (when these fit an [int64]). *)
Theorem observed_size_within_offered ToLower handlerFunc w r since m :
  let x := serve ToLower handlerFunc w r since m in
  honours_contract (answers w) ->
  outcome_of x = Returned ->
  offered (forwarded w (writer_of x)) <= max_int64 ->
  exists n, resSz (metrics_of x) = (resSz m ++ [float64_of_int n])%list /\
            0 <= n <= offered (forwarded w (writer_of x)).
Proof.
  cbv zeta. intros Hans Hout Hmax.
  pose proof (serve_resSz ToLower handlerFunc w r since m) as Hsz. cbv zeta in Hsz.
  rewrite Hout in Hsz. eexists. split; [exact Hsz|].
  apply (reported_bounds _ _ (received w) 0 Hans); lia.
Qed.


(** Two writes of four bytes on a writer that takes two of each: the
    summary observes 4, within the 8 offered. *)
Lemma observed_size_within_offered_witness :
  let x := serve ToLowerASCII two_writes_handler short_writer get_request 0 no_metrics in
  offered (forwarded short_writer (writer_of x)) = 8 /\
  resSz (metrics_of x) = [float64_of_int 4] /\
  exists n, resSz (metrics_of x) = (resSz no_metrics ++ [float64_of_int n])%list /\
            0 <= n <= offered (forwarded short_writer (writer_of x)).
Proof.
  cbv zeta. split; [reflexivity|]. split; [reflexivity|].
  apply (observed_size_within_offered ToLowerASCII two_writes_handler short_writer get_request
           0 no_metrics).
  - intros pre c. destruct c; simpl; lia.
  - reflexivity.
  - vm_compute. discriminate.
Defined.

(** ** What one request records *)

(** A request whose handler returns is recorded once: one child of the
    counter, labelled with the sanitised method and the code of the recorded
    status, grows by one and no other child changes; the histogram gets one
    observation, the time elapsed over [time.Second]; the summary gets one
    observation. *)
Theorem returning_request_recorded_once ToLower handlerFunc w r since m :
  let x := serve ToLower handlerFunc w r since m in
  let lbl := (sanitizeMethod ToLower (Method r),
              sanitizeCode (status (snd (run (select w) (handlerFunc r) (new_delegate w))))) in
  outcome_of x = Returned ->
  counter_value (reqCnt (metrics_of x)) lbl = counter_value (reqCnt m) lbl + 1 /\
  (forall l, l <> lbl -> counter_value (reqCnt (metrics_of x)) l = counter_value (reqCnt m) l) /\
  reqDur (metrics_of x)
  = (reqDur m ++ [float64_quot (float64_of_int since) (float64_of_int time_Second)])%list /\
  length (resSz (metrics_of x)) = S (length (resSz m)).
Proof.
  cbv zeta. rewrite serve_unfold. cbv zeta. unfold outcome_of, metrics_of. simpl.
  intros ->. simpl. split; [|split; [|split]].
  - unfold counter_value at 1. by rewrite lookup_insert_eq.
  - intros l Hl. unfold counter_value at 1. by rewrite lookup_insert_ne.
  - reflexivity.
  - rewrite length_app. simpl. lia.
Qed.

Lemma returning_request_recorded_once_witness :
  let x := serve ToLowerASCII not_found_handler bare_writer get_request 250 no_metrics in
  counter_value (reqCnt (metrics_of x)) ("get", "404") = 1 /\
  counter_value (reqCnt (metrics_of x)) ("get", "200") = 0 /\
  reqDur (metrics_of x) = [float64_quot (float64_of_int 250) (float64_of_int time_Second)] /\
  length (resSz (metrics_of x)) = 1%nat.
Proof.
  cbv zeta.
  destruct (returning_request_recorded_once ToLowerASCII not_found_handler bare_writer
              get_request 250 no_metrics eq_refl) as (H1 & H2 & H3 & H4).
  split; [exact H1|]. split; [apply (H2 ("get", "200")); discriminate|].
  split; [exact H3|exact H4].
Defined.

(** A request with the method spelled [Get]: the gauge child is [Get], the
    counter child is [get]. *)
Example gauge_and_counter_labels :
  let r := {| Method := "Get"; URL := "/" |} in
  let x := serve ToLowerASCII done_handler bare_writer r 0 no_metrics in
  inFlightReq (metrics_of x) = {[ "Get" := 0 ]} /\
  reqCnt (metrics_of x) = {[ ("get", "200") := 1 ]}.
Proof. repeat split. Qed.

(** ** The other methods that carry a body, and the pure forwards *)


(** [WriteString] on an [rwShared] returns the count and the error of the
    inner [WriteString] unchanged and adds that count to [written], after the
    implicit header; on an inner writer without [WriteString] it panics with
    the header already recorded and forwarded. *)
Theorem WriteString_result_unchanged s r :
  let r1 := if Shared.wroteHeader (Shared.stats_ r) then r
            else Shared.WriteHeader http.StatusOK r in
  let under := invoke (CallWriteString s) (Shared.inner r1) in
  if implements (Shared.inner r) StringWriter
  then exists r', Shared.WriteString s r = Value (fst under) r' /\
                  Shared.inner r' = snd under /\
                  Shared.written (Shared.stats_ r')
                  = add64 (Shared.written (Shared.stats_ r)) (fst (fst under)) /\
                  Shared.status (Shared.stats_ r') = Shared.status (Shared.stats_ r1)
  else Shared.WriteString s r = AssertPanic StringWriter r1.
Proof.
  cbv zeta. unfold Shared.WriteString.
  assert (Hi : implements (Shared.inner (Shared.WriteHeader http.StatusOK r))
               = implements (Shared.inner r)).
  { unfold Shared.WriteHeader. simpl. by rewrite invoke_writer. }
  destruct (Shared.wroteHeader (Shared.stats_ r)); cbv [negb]; rewrite ?Hi;
    destruct (implements (Shared.inner r) StringWriter); try reflexivity;
    match goal with |- context [invoke ?c ?w] => destruct (invoke c w) as [[n err] w'] end;
    eexists; (split; [reflexivity|]); simpl; done.
Qed.

(** [CloseNotify], [Flush], [Hijack] and [Push] of the [rwShared] family are
    pure forwards: they leave the statistics alone, and the inner writer
    receives exactly the call when it implements the interface and nothing
    when it does not. *)
Theorem rwShared_pure_forwards c payload text r :
  c ∈ [CloseNotifier; Flusher; Hijacker; Pusher] ->
  let r' := state_of (Shared.call_optional c payload text r) in
  Shared.stats_ r' = Shared.stats_ r /\
  forwarded (Shared.inner r) (Shared.inner r')
  = (if implements (Shared.inner r) c then [call_for c payload text] else []) /\
  panicked (Shared.call_optional c payload text r) = negb (implements (Shared.inner r) c).
Proof.
  intros Hc. cbv zeta. set_unfold.
  destruct Hc as [->|[->|[->|[->|[]]]]]; simpl;
    unfold Shared.CloseNotify, Shared.Flush, Shared.Hijack, Shared.Push;
    destruct (implements (Shared.inner r) _); simpl;
    rewrite ?forwarded_refl; try done;
    try (match goal with |- context [invoke ?c ?w] =>
           pose proof (invoke_forwarded c w) as Hf;
           destruct (invoke c w) as [[n err] w'] end);
    simpl in *; rewrite ?invoke_forwarded; done.
Qed.

Lemma rwShared_pure_forwards_witness :
  let r := Shared.WriteHeader 200 (new_rwShared h2_writer) in
  let r' := state_of (Shared.call_optional Pusher [] "/style.css" r) in
  Shared.status (Shared.stats_ r') = 200 /\
  forwarded (Shared.inner r) (Shared.inner r') = [CallPush "/style.css"].
Proof.
  cbv zeta.
  destruct (rwShared_pure_forwards Pusher [] "/style.css"
              (Shared.WriteHeader 200 (new_rwShared h2_writer))) as (Hs & Hf & _).
  - set_solver.
  - split; [by rewrite Hs|exact Hf].
Defined.

(** The [rwShared] family does on its statistics and its inner writer what
    the delegator does on its fields and its embedded writer: method by
    method, the two agree on the result and on the state they leave. *)
Theorem rwShared_simulates_delegator d :
  Shared.Header (to_shared d) = to_shared (Header d) /\
  (forall code, Shared.WriteHeader code (to_shared d) = to_shared (WriteHeader code d)) /\
  (forall b, Shared.Write b (to_shared d) = (fst (Write b d), to_shared (snd (Write b d)))) /\
  Shared.CloseNotify (to_shared d) = map_state to_shared (CloseNotify d) /\
  Shared.Flush (to_shared d) = map_state to_shared (Flush d) /\
  Shared.Hijack (to_shared d) = map_state to_shared (Hijack d) /\
  (forall src, Shared.ReadFrom src (to_shared d) = map_state to_shared (ReadFrom src d)).
Proof.
  repeat split.
  - intros b. unfold Shared.Write, Write. simpl.
    destruct (wroteHeader d); simpl;
      match goal with |- context [invoke ?c ?w] => destruct (invoke c w) as [[n err] w'] end;
      reflexivity.
  - unfold Shared.CloseNotify, CloseNotify. simpl. by destruct (implements _ _).
  - unfold Shared.Flush, Flush. simpl. by destruct (implements _ _).
  - unfold Shared.Hijack, Hijack. simpl. destruct (implements _ _); [|done].
    by destruct (invoke _ _) as [[n err] w'].
  - intros src. unfold Shared.ReadFrom, ReadFrom. simpl.
    destruct (wroteHeader d); simpl; rewrite ?invoke_writer; simpl;
      destruct (implements (ResponseWriter d) ReaderFrom); try reflexivity;
      match goal with |- context [invoke ?c ?w] => destruct (invoke c w) as [[n err] w'] end;
      reflexivity.
Qed.

(** ** Construction, step by step *)

(** The four registrations are made in the order gauge, counter, histogram,
    summary, and the first answer that is not recoverable ends the call: the
    panic carries that answer, the registry is the one that registration
    left, so that what was registered before stays registered and what comes
    after is never registered. *)
Theorem construction_stops_at_first_failure
    (Registry : Type) (Register : Collector -> Registry -> option RegisterError * Registry)
    (asserts_to : CollectorKind -> Collector -> bool) (o : Opts) (reg : Registry) :
  let a1 := Register (new_inFlightReq o) reg in
  let a2 := Register (new_reqCnt o) (snd a1) in
  let a3 := Register (new_reqDur o) (snd a2) in
  let a4 := Register (new_resSz o) (snd a3) in
  let result := InstrumentHandlerFuncWithOpts Registry Register asserts_to o reg in
  match panic_of asserts_to (new_inFlightReq o) (fst a1) with
  | Some p => result = (inr p, snd a1)
  | None =>
      match panic_of asserts_to (new_reqCnt o) (fst a2) with
      | Some p => result = (inr p, snd a2)
      | None =>
          match panic_of asserts_to (new_reqDur o) (fst a3) with
          | Some p => result = (inr p, snd a3)
          | None =>
              match panic_of asserts_to (new_resSz o) (fst a4) with
              | Some p => result = (inr p, snd a4)
              | None => exists handles, result = (inl handles, snd a4)
              end
          end
      end
  end.
Proof.
  cbv zeta. unfold InstrumentHandlerFuncWithOpts, register_or_reuse.
  destruct (Register (new_inFlightReq o) reg) as [[[ex1 n1|e1]|] r1]; simpl;
    [destruct (asserts_to GaugeVec ex1); simpl; [|reflexivity]|reflexivity|];
    (destruct (Register (new_reqCnt o) r1) as [[[ex2 n2|e2]|] r2]; simpl;
     [destruct (asserts_to CounterVec ex2); simpl; [|reflexivity]|reflexivity|]);
    (destruct (Register (new_reqDur o) r2) as [[[ex3 n3|e3]|] r3]; simpl;
     [destruct (asserts_to Histogram ex3); simpl; [|reflexivity]|reflexivity|]);
    (destruct (Register (new_resSz o) r3) as [[[ex4 n4|e4]|] r4]; simpl;
     [destruct (asserts_to Summary ex4); simpl; [|reflexivity]|reflexivity|]);
    eexists; reflexivity.
Qed.

(** A conflict on the counter: the gauge registered just before stays in
    the registry, the histogram and the summary are not registered. *)
Example construct_conflict_keeps_gauge :
  let o := InstrumentHandlerFunc_opts "api" in
  let other :=
    {| kind := Summary; opts := opts (new_reqCnt o);
       labelNames := []; Buckets := []; Objectives := [] |} in
  snd (InstrumentHandlerFunc (list Collector) list_Register same_kind "api" [other])
  = [other; new_inFlightReq o].
Proof. vm_compute. reflexivity. Qed.

(** The [Name] and the [Help] of the options given are ignored: the four
    collectors are named [inflight_requests], [requests_total],
    [request_duration_seconds] and [response_size_bytes] under the namespace
    and subsystem given, with the variable labels [method] for the gauge and
    [method], [code] for the counter, and the construction is the same
    whatever [Name] and [Help] say. *)
Theorem Name_and_Help_ignored
    (Registry : Type) (Register : Collector -> Registry -> option RegisterError * Registry)
    (asserts_to : CollectorKind -> Collector -> bool) (o : Opts) (name help : string)
    (reg : Registry) :
  InstrumentHandlerFuncWithOpts Registry Register asserts_to (with_Name_Help o name help) reg
  = InstrumentHandlerFuncWithOpts Registry Register asserts_to o reg /\
  map (fun c => (Namespace (opts c), Subsystem (opts c), Name (opts c), labelNames c))
    [new_inFlightReq (with_Name_Help o name help); new_reqCnt (with_Name_Help o name help);
     new_reqDur (with_Name_Help o name help); new_resSz (with_Name_Help o name help)]
  = [(Namespace o, Subsystem o, "inflight_requests", ["method"]);
     (Namespace o, Subsystem o, "requests_total", ["method"; "code"]);
     (Namespace o, Subsystem o, "request_duration_seconds", []);
     (Namespace o, Subsystem o, "response_size_bytes", [])].
Proof. split; reflexivity. Qed.

(** ** The approximate size of a request *)

Lemma wrap64_add_l a b : wrap64 (wrap64 a + b) = wrap64 (a + b).
Proof.
  unfold wrap64.
  replace ((a + 2 ^ 63) mod 2 ^ 64 - 2 ^ 63 + b + 2 ^ 63)
    with ((a + 2 ^ 63) mod 2 ^ 64 + b) by lia.
  rewrite Zplus_mod_idemp_l. f_equal. f_equal. lia.
Qed.

Lemma wrap64_add_r a b : wrap64 (a + wrap64 b) = wrap64 (a + b).
Proof. by rewrite Z.add_comm, wrap64_add_l, Z.add_comm. Qed.

Lemma add64_wrapped a b : add64 (wrap64 a) b = wrap64 (a + b).
Proof. apply wrap64_add_l. Qed.

Lemma add_values_sum values : forall s,
  reqsize.add_values (wrap64 s) values = wrap64 (s + reqsize.values_sum values).
Proof.
  induction values as [|v values IH]; intros s; simpl.
  - f_equal. lia.
  - rewrite add64_wrapped, IH. f_equal. lia.
Qed.

Lemma add_header_sum h : forall s,
  reqsize.add_header (wrap64 s) h = wrap64 (s + reqsize.header_sum h).
Proof.
  induction h as [|[name values] h IH]; intros s.
  - simpl. f_equal. lia.
  - change (reqsize.add_header (wrap64 s) ((name, values) :: h))
      with (reqsize.add_header
              (reqsize.add_values (add64 (wrap64 s) (reqsize.len name)) values) h).
    rewrite add64_wrapped, add_values_sum, IH. simpl. f_equal. lia.
Qed.

Lemma size_is_wrapped_sum r :
  reqsize.computeApproximateRequestSize r = wrap64 (reqsize.plain_size r).
Proof.
  unfold reqsize.computeApproximateRequestSize, reqsize.plain_size. cbv zeta.
  assert (H0 : match reqsize.URL r with
               | Some u => add64 0 (reqsize.len u)
               | None => 0
               end
               = wrap64 (match reqsize.URL r with Some u => reqsize.len u | None => 0 end)).
  { destruct (reqsize.URL r); reflexivity. }
  rewrite H0, !add64_wrapped, add_header_sum, add64_wrapped.
  destruct (reqsize.ContentLength r =? -1)%Z.
  - f_equal. lia.
  - unfold add64. by rewrite wrap64_add_l, wrap64_add_r.
Qed.

Lemma header_sum_permutation h h' :
  h ≡ₚ h' -> reqsize.header_sum h = reqsize.header_sum h'.
Proof.
  induction 1 as [|x l l' _ IH|x y l|l l' l'' _ IH1 _ IH2]; simpl; lia.
Qed.

(** The size is the sum of the lengths of the URL, the method, the
    protocol, the header names and values and the host, plus the content
    length unless it is -1, brought into the range of [int]: it is that
    very sum when the sum fits, a nil URL counts for nothing, and a content
    length of -1 counts for nothing while any other is added as it is. *)
Theorem request_size_is_plain_sum r :
  reqsize.computeApproximateRequestSize r = wrap64 (reqsize.plain_size r) /\
  (in_int64 (reqsize.plain_size r) ->
   reqsize.computeApproximateRequestSize r = reqsize.plain_size r).
Proof.
  split; [apply size_is_wrapped_sum|].
  intros H. rewrite size_is_wrapped_sum. by apply wrap64_id.
Qed.

Lemma request_size_is_plain_sum_witness :
  in_int64 (reqsize.plain_size sample_sized_request) /\
  reqsize.computeApproximateRequestSize sample_sized_request = 59.
Proof.
  assert (H : in_int64 (reqsize.plain_size sample_sized_request))
    by (vm_compute; split; discriminate).
  split; [exact H|].
  rewrite (proj2 (request_size_is_plain_sum sample_sized_request) H). reflexivity.
Defined.

(** The header is a map and the loop over it meets its entries in no fixed
    order: the size does not depend on that order. *)
Theorem request_size_header_order r h' :
  reqsize.Header r ≡ₚ h' ->
  reqsize.computeApproximateRequestSize (with_Header r h')
  = reqsize.computeApproximateRequestSize r.
Proof.
  intros Hp. rewrite !size_is_wrapped_sum. f_equal.
  unfold reqsize.plain_size. simpl. by rewrite (header_sum_permutation _ _ Hp).
Qed.

Lemma request_size_header_order_witness :
  reqsize.computeApproximateRequestSize
    (with_Header sample_sized_request [("User-Agent", ["curl"; "7"]); ("Accept", ["*/*"])])
  = reqsize.computeApproximateRequestSize sample_sized_request.
Proof.
  apply (request_size_header_order sample_sized_request).
  apply perm_swap.
Defined.

(** A content length of -1 is left out, any other is added as it is, a
    negative one included. *)
Example request_size_content_length :
  let with_length n :=
    {| reqsize.URL := None; reqsize.Method := "PUT"; reqsize.Proto := "HTTP/1.1";
       reqsize.Header := []; reqsize.Host := ""; reqsize.ContentLength := n |} in
  reqsize.computeApproximateRequestSize (with_length (-1)) = 11 /\
  reqsize.computeApproximateRequestSize (with_length 100) = 111 /\
  reqsize.computeApproximateRequestSize (with_length (-2)) = 9.
Proof. repeat split. Qed.
